(** * Disaster-response aggregation pipeline: cache, official updates, social posts

    A shallow embedding of the JavaScript services
      - [utils/cache]             (class CacheManager),
      - [services/officialUpdates] (class OfficialUpdatesService),
      - [services/socialMedia]     (class SocialMediaService),
    followed by the properties established about them.

    Conventions of the embedding.
      - A JavaScript string is a [string] whose characters are read as the
        code units U+0000 .. U+00FF (Latin-1); [String.length] is [.length].
        Lower-casing keeps the length of such a string, which it does not
        for every string of JavaScript.
      - A point in time is the integer number of milliseconds since the epoch
        ([Date.now()], [Date.prototype.getTime]); an invalid [Date] is kept
        apart from the valid ones, and [new Date(ms)] is invalid when [ms]
        is more than 8.64e15 away from the epoch.
      - Relevance scores are JavaScript numbers built from decimal constants
        by additions.  [scoreUpdate] and [calculateRelevance] add them
        exactly, as rationals ([Q]), where the program rounds every sum to a
        double.  What is said of the order and the content of the ranked
        list of updates is said for an arbitrary scoring function
        ([rankUpdatesWith]) and so does not depend on the rounding.
      - [async] functions are embedded by their result: a value or a thrown
        error ([result]); the clock and the random source are explicit
        arguments.  The cache table lives in an external store; it is
        embedded as a finite map and its calls succeed. *)

From Stdlib Require Import ZArith QArith Qminmax Lqa Lia List String Ascii.
From Stdlib Require Import Permutation Sorted DecimalString.
From stdpp Require Import gmap strings.

(* ===================================================================== *)
(** ** JavaScript base layer: strings, numbers, exceptions               *)
(* ===================================================================== *)

Module JS.

Local Open Scope N_scope.

(** [String.prototype.charCodeAt] on one character. *)
Definition charCode (c : ascii) : N := N_of_ascii c.

(** Upper-case letters of Latin-1: A-Z and U+00C0 .. U+00DE except the
    multiplication sign U+00D7. *)
Definition isUpper (c : ascii) : bool :=
  let n := charCode c in
  ((65 <=? n) && (n <=? 90)) || ((192 <=? n) && (n <=? 222) && negb (n =? 215)).

Definition toLowerCase_char (c : ascii) : ascii :=
  if isUpper c then ascii_of_N (charCode c + 32) else c.

(** [String.prototype.toLowerCase] on a string of Latin-1 characters. *)
Fixpoint toLowerCase (s : string) : string :=
  match s with
  | EmptyString => EmptyString
  | String c s' => String (toLowerCase_char c) (toLowerCase s')
  end.

(** White space as [trim] and the regular expression class [\s] see it
    (restricted to Latin-1): TAB, LF, VT, FF, CR, SPACE, NBSP. *)
Definition isWhiteSpace (c : ascii) : bool :=
  let n := charCode c in
  ((9 <=? n) && (n <=? 13)) || (n =? 32) || (n =? 160).

(** [haystack.includes(needle)]. *)
Fixpoint includes (haystack needle : string) : bool :=
  String.prefix needle haystack ||
  match haystack with
  | EmptyString => false
  | String _ rest => includes rest needle
  end.

Fixpoint drop (n : nat) (s : string) : string :=
  match n, s with
  | O, _ => s
  | S n', String _ s' => drop n' s'
  | S _, EmptyString => EmptyString
  end.

(** [s.replace(pattern, replacement)] with a string pattern: the first
    occurrence only (the replacement is taken literally: no [$] patterns). *)
Fixpoint replace (s pattern replacement : string) : string :=
  if String.prefix pattern s
  then (replacement ++ drop (String.length pattern) s)%string
  else match s with
       | EmptyString => EmptyString
       | String c s' => String c (replace s' pattern replacement)
       end.

Fixpoint trimStart (s : string) : string :=
  match s with
  | String c s' => if isWhiteSpace c then trimStart s' else s
  | EmptyString => EmptyString
  end.

Fixpoint trimEnd (s : string) : string :=
  match s with
  | EmptyString => EmptyString
  | String c s' =>
      match trimEnd s' with
      | EmptyString => if isWhiteSpace c then EmptyString else String c EmptyString
      | t => String c t
      end
  end.

(** [String.prototype.trim]. *)
Definition trim (s : string) : string := trimEnd (trimStart s).

(** [s.split(sep)] for a one-character separator. *)
Fixpoint split (sep : ascii) (s : string) : list string :=
  match s with
  | EmptyString => [EmptyString]
  | String c s' =>
      if Ascii.eqb c sep then EmptyString :: split sep s'
      else match split sep s' with
           | part :: parts => String c part :: parts
           | [] => [String c EmptyString]
           end
  end.

(** [ToInt32]: what the bitwise operators do to their operands and result. *)
Definition toInt32 (z : Z) : Z := ((z + 2 ^ 31) mod 2 ^ 32 - 2 ^ 31)%Z.

(** [Number.prototype.toString(36)] on a non-negative integer. *)
Definition digit36 (d : N) : ascii :=
  if d <? 10 then ascii_of_N (48 + d) else ascii_of_N (87 + d).

Fixpoint toString36_aux (fuel : nat) (n : N) (acc : string) : string :=
  match fuel with
  | O => acc
  | S fuel' =>
      let acc' := String (digit36 (n mod 36)) acc in
      if n / 36 =? 0 then acc' else toString36_aux fuel' (n / 36) acc'
  end.

Definition toString36 (n : N) : string :=
  toString36_aux (S (N.to_nat (N.log2 n))) n EmptyString.

(** Reading a base-36 numeral back (used to check [toString36]). *)
Definition digitValue36 (c : ascii) : N :=
  let n := charCode c in if n <? 58 then n - 48 else n - 87.

Fixpoint parse36_aux (acc : N) (s : string) : N :=
  match s with
  | EmptyString => acc
  | String c s' => parse36_aux (36 * acc + digitValue36 c) s'
  end.

Definition parse36 (s : string) : N := parse36_aux 0 s.

(** A value that may be [null] or [undefined]. *)
Inductive nullable (V : Type) : Type :=
| Null
| Undefined
| Val (v : V).
Arguments Null {V}.
Arguments Undefined {V}.
Arguments Val {V} v.

Definition isNullish {V} (x : nullable V) : bool :=
  match x with Val _ => false | _ => true end.

(** Outcome of a call that may [throw]; an error is its message. *)
Inductive result (A : Type) : Type :=
| Ok (a : A)
| Throw (message : string).
Arguments Ok {A} a.
Arguments Throw {A} message.

Definition bind {A B} (c : result A) (k : A -> result B) : result B :=
  match c with
  | Ok a => k a
  | Throw e => Throw e
  end.

(** [try { c } catch (error) { handler error }]. *)
Definition tryCatch {A} (c : result A) (handler : string -> result A) : result A :=
  match c with
  | Ok a => Ok a
  | Throw e => handler e
  end.

(** One entry of the array [Promise.allSettled] resolves to. *)
Inductive settled (A : Type) : Type :=
| Fulfilled (value : A)
| Rejected (reason : string).
Arguments Fulfilled {A} value.
Arguments Rejected {A} reason.

Definition allSettled {A} (promises : list (result A)) : list (settled A) :=
  map (fun p => match p with Ok a => Fulfilled a | Throw e => Rejected e end) promises.

(** [array.slice(0, n)]: a negative [n] counts from the end. *)
Definition slice0 {A} (n : Z) (l : list A) : list A :=
  if (n <? 0)%Z then firstn (Z.to_nat (Z.of_nat (List.length l) + n)) l
  else firstn (Z.to_nat n) l.

(** A [Date] object. *)
Inductive Date : Type :=
| ValidDate (ms : Z)
| InvalidDate.

(** [new Date(ms)] on a number: a time value more than 8.64e15 ms away
    from the epoch gives an invalid date. *)
Definition maxTime : Z := 8640000000000000.

Definition newDate (ms : Z) : Date :=
  if (Z.abs ms <=? maxTime)%Z then ValidDate ms else InvalidDate.

(** [a >= b] on two dates: [false] as soon as one of them is invalid (its
    time value is [NaN]). *)
Definition dateGe (a b : Date) : bool :=
  match a, b with
  | ValidDate x, ValidDate y => (y <=? x)%Z
  | _, _ => false
  end.

(** [Array.prototype.sort(compareFn)] for a consistent comparator: a
    stable sort; [compareFn a b > 0] places [a] after [b]. *)
Section ArraySort.
Context {A : Type} (compareFn : A -> A -> Q).

Definition placedAfter (a b : A) : bool := negb (Qle_bool (compareFn a b) 0).

Fixpoint insertSorted (x : A) (l : list A) : list A :=
  match l with
  | [] => [x]
  | y :: l' => if placedAfter x y then y :: insertSorted x l' else x :: y :: l'
  end.

Fixpoint sort (l : list A) : list A :=
  match l with
  | [] => []
  | x :: l' => insertSorted x (sort l')
  end.
End ArraySort.


(** [s.split(/\s+/)]: the pieces between runs of white space; a run at
    either end leaves an empty piece there.  [inGap] tells that the
    previous character was white space. *)
Fixpoint splitWhiteSpace_aux (inGap : bool) (s : string) : list string :=
  match s with
  | EmptyString => [EmptyString]
  | String c s' =>
      if isWhiteSpace c
      then (if inGap then splitWhiteSpace_aux true s'
            else EmptyString :: splitWhiteSpace_aux true s')
      else match splitWhiteSpace_aux false s' with
           | part :: parts => String c part :: parts
           | [] => [String c EmptyString]
           end
  end.

Definition splitWhiteSpace (s : string) : list string := splitWhiteSpace_aux false s.

(** The class [\w]: letters, digits and the underscore. *)
Definition isWordChar (c : ascii) : bool :=
  let n := charCode c in
  ((48 <=? n) && (n <=? 57)) || ((65 <=? n) && (n <=? 90))
  || ((97 <=? n) && (n <=? 122)) || (n =? 95).

(** [word.replace(/[^\w]/g, '')]. *)
Fixpoint keepWordChars (s : string) : string :=
  match s with
  | EmptyString => EmptyString
  | String c s' => if isWordChar c then String c (keepWordChars s') else keepWordChars s'
  end.

(** [array.includes(x)] on strings. *)
Definition arrayIncludes (l : list string) (x : string) : bool :=
  existsb (String.eqb x) l.

(** [[...new Set(array)]]: first occurrences, in order. *)
Fixpoint unique (seen l : list string) : list string :=
  match l with
  | [] => []
  | x :: l' => if arrayIncludes seen x then unique seen l'
               else x :: unique (x :: seen) l'
  end.

End JS.

(* ===================================================================== *)
(** ** utils/cache: class CacheManager                                   *)
(* ===================================================================== *)

Module Cache.
Import JS.
Local Open Scope Z_scope.

(** [this.defaultTTL = parseInt(process.env.CACHE_TTL) || 3600]; the
    argument is the parsed environment variable, [None] when it is unset
    or not a number. *)
Definition defaultTTL (CACHE_TTL : option Z) : Z :=
  match CACHE_TTL with
  | Some n => if n =? 0 then 3600 else n
  | None => 3600
  end.

(** The third argument of [generateKey]: a string, or any other value,
    given by its [JSON.stringify] text. *)
Inductive keyInput : Type :=
| StringInput (input : string)
| OtherInput (stringified : string).

(** [hashString]: the loop body, then the whole function. *)
Definition hashStep (hash : Z) (c : ascii) : Z :=
  let char := Z.of_N (charCode c) in
  let hash := (toInt32 (Z.shiftl (toInt32 hash) 5) - hash) + char in
  Z.land (toInt32 hash) (toInt32 hash).

Definition hashLoop (str : string) : Z :=
  fold_left hashStep (list_ascii_of_string str) 0.

Definition hashString (str : string) : string :=
  toString36 (Z.to_N (Z.abs (hashLoop str))).

Definition inputKey (input : keyInput) : string :=
  match input with
  | StringInput input =>
      if (100 <? String.length input)%nat then hashString input else input
  | OtherInput stringified => stringified
  end.

Definition generateKey (service operation : string) (input : keyInput) : string :=
  toLowerCase (service ++ ":" ++ operation ++ ":" ++ inputKey input)%string.

Section Store.
(** [V]: the JSON values kept in the cache; [St]: whatever state the
    computation behind [fetchFunction] reads and changes. *)
Context {V St : Type}.
Variable CACHE_TTL : option Z.

(** A row of the [cache] table. *)
Record entry : Type := {
  value : nullable V;
  expires_at : Z;
  source : option string;
  hit_count : Z
}.

(** [delete(key)]. *)
Definition delete (key : string) (tbl : gmap string entry) : bool * gmap string entry :=
  (true, base.delete key tbl).

(** [get(key)] at time [now]: no row is a miss; an expired row is
    deleted and is a miss; otherwise the hit counter goes up by one and
    the stored value is returned. *)
Definition get (now : Z) (key : string) (tbl : gmap string entry)
  : nullable V * gmap string entry :=
  match tbl !! key with
  | None => (Null, tbl)
  | Some data =>
      if expires_at data <? now
      then (Null, snd (delete key tbl))
      else (value data,
            <[key := {| value := value data; expires_at := expires_at data;
                        source := source data;
                        hit_count := hit_count data + 1 |}]> tbl)
  end.

(** [ttl || this.defaultTTL]. *)
Definition ttlOrDefault (ttl : option Z) : Z :=
  match ttl with
  | Some t => if t =? 0 then defaultTTL CACHE_TTL else t
  | None => defaultTTL CACHE_TTL
  end.

(** [set(key, value, ttl, source)] at time [now]. *)
Definition set (now : Z) (key : string) (v : nullable V) (ttl : option Z)
    (src : option string) (tbl : gmap string entry) : bool * gmap string entry :=
  let expiresAt := now + ttlOrDefault ttl * 1000 in
  (true, <[key := {| value := v; expires_at := expiresAt;
                     source := src; hit_count := 0 |}]> tbl).

(** [getOrSet(key, fetchFunction, ttl, source)].  [now_get] is the time
    of the expiry test in [get], [now_set] the time [set] reads once
    [fetchFunction] has returned. *)
Definition getOrSet (now_get now_set : Z) (key : string)
    (fetchFunction : St -> result (nullable V) * St)
    (ttl : option Z) (src : option string)
    (st : gmap string entry * St) : result (nullable V) * (gmap string entry * St) :=
  let (tbl, s) := st in
  let (cachedValue, tbl) := get now_get key tbl in
  match cachedValue with
  | Undefined | Val _ => (Ok cachedValue, (tbl, s))
  | Null =>
      match fetchFunction s with
      | (Ok fetchedValue, s) =>
          if isNullish fetchedValue
          then (Ok fetchedValue, (tbl, s))
          else (Ok fetchedValue, (snd (set now_set key fetchedValue ttl src tbl), s))
      | (Throw error, s) => (Throw error, (tbl, s))
      end
  end.

(** A [fetchFunction] instrumented with the number of times it ran. *)
Definition counting (fetchFunction : St -> result (nullable V) * St)
  : St * nat -> result (nullable V) * (St * nat) :=
  fun '(s, calls) =>
    let (r, s') := fetchFunction s in (r, (s', S calls)).

(** What [getStats] returns. *)
Record stats : Type := {
  totalEntries : nat;
  bySource : gmap string nat;
  totalHits : Z;
  expiredEntries : nat
}.

(** The body of [data.forEach] in [getStats], at time [now]. *)
Definition countEntry (now : Z) (st : stats) (e : entry) : stats :=
  {| totalEntries := totalEntries st;
     bySource :=
       match source e with
       | Some src =>
           if String.eqb src "" then bySource st
           else <[src := S (match bySource st !! src with Some n => n | None => O end)]>
                  (bySource st)
       | None => bySource st
       end;
     totalHits := totalHits st + hit_count e;
     expiredEntries :=
       if expires_at e <? now then S (expiredEntries st) else expiredEntries st |}.

(** [getStats()] over the rows the store returns. *)
Definition getStatsOf (now : Z) (data : list entry) : stats :=
  fold_left (countEntry now) data
            {| totalEntries := List.length data; bySource := ∅;
               totalHits := 0; expiredEntries := O |}.

Definition getStats (now : Z) (tbl : gmap string entry) : stats :=
  getStatsOf now (map snd (map_to_list tbl)).

End Store.

Arguments entry : clear implicits.
End Cache.

(* ===================================================================== *)
(** ** The disaster row both services are called with                    *)
(* ===================================================================== *)

Module Domain.
(** The fields of a disaster the services read; [tags] and
    [location_name] may be missing. *)
Record Disaster : Type := {
  id : string;
  tags : option (list string);
  location_name : option string
}.
End Domain.

(* ===================================================================== *)
(** ** services/officialUpdates: class OfficialUpdatesService            *)
(* ===================================================================== *)

Module OfficialUpdates.
Import JS Domain.
Local Open Scope string_scope.
Local Open Scope Q_scope.

(** The labels [updateType] takes. *)
Inductive UpdateType : Type :=
| Evacuation | Alert | Advisory | StatusUpdate | Relief | General
| Warning | Watch | Statement.

(** An update as an adapter pushes it.  [publishedAt] is
    [publishedAt?.toISOString()]: absent when the date could not be read. *)
Record Update : Type := {
  title : string;
  content : string;
  url : option string;
  publishedAt : option Z;
  source : string;
  updateType : UpdateType;
  priorityLevel : Z
}.

(** [{ ...update, relevanceScore }]. *)
Record RankedUpdate : Type := {
  update :> Update;
  relevanceScore : Q
}.

Record SourceConfig : Type := {
  name : string;
  newsUrl : string;
  enabled : bool
}.

(** [this.sources], in key order. *)
Definition sources : list (string * SourceConfig) :=
  [ ("fema", {| name := "FEMA";
                newsUrl := "https://www.fema.gov/about/news-multimedia/news-stories";
                enabled := true |});
    ("redcross", {| name := "American Red Cross";
                    newsUrl := "https://www.redcross.org/about-us/news-and-events/news";
                    enabled := true |});
    ("cdc", {| name := "CDC Emergency Preparedness";
               newsUrl := "https://www.cdc.gov/cpr/whatsnew/whatsnew.htm";
               enabled := true |});
    ("nws", {| name := "National Weather Service";
               newsUrl := "https://www.weather.gov/news/";
               enabled := true |}) ].

Definition disasterKeywords : list string :=
  [ "emergency"; "disaster"; "flood"; "flooding"; "hurricane"; "tornado";
    "earthquake"; "wildfire"; "fire"; "storm"; "evacuation"; "warning";
    "watch"; "alert"; "advisory"; "relief"; "response"; "recovery";
    "preparedness"; "safety" ].

Fixpoint lookupSource (key : string) (cfg : list (string * SourceConfig))
  : option SourceConfig :=
  match cfg with
  | [] => None
  | (k, c) :: rest => if String.eqb k key then Some c else lookupSource key rest
  end.

(** [isWithinTimeWindow(date, timeWindow)] at time [now]; [timeWindow] is
    in hours.  A missing date is kept; the comparison is false when the
    date or the cutoff is invalid. *)
Definition isWithinTimeWindow (now : Z) (date : option Date) (timeWindow : Z) : bool :=
  match date with
  | None => true
  | Some date =>
      let cutoff := newDate (now - timeWindow * 60 * 60 * 1000)%Z in
      dateGe date cutoff
  end.

(** [classifyUpdateType(title)]. *)
Definition classifyUpdateType (title : string) : UpdateType :=
  let lowerTitle := toLowerCase title in
  if includes lowerTitle "evacuation" then Evacuation
  else if includes lowerTitle "warning" || includes lowerTitle "alert" then Alert
  else if includes lowerTitle "advisory" then Advisory
  else if includes lowerTitle "update" || includes lowerTitle "status" then StatusUpdate
  else if includes lowerTitle "relief" || includes lowerTitle "aid" then Relief
  else General.

(** [calculatePriority(title)]. *)
Definition calculatePriority (title : string) : Z :=
  let lowerTitle := toLowerCase title in
  if includes lowerTitle "urgent" || includes lowerTitle "emergency" then 5
  else if includes lowerTitle "warning" || includes lowerTitle "evacuation" then 4
  else if includes lowerTitle "alert" || includes lowerTitle "watch" then 3
  else if includes lowerTitle "advisory" then 2
  else 1.

(** [classifyNWSAlert(event)]. *)
Definition classifyNWSAlert (event : string) : UpdateType :=
  let lowerEvent := toLowerCase event in
  if includes lowerEvent "warning" then Warning
  else if includes lowerEvent "watch" then Watch
  else if includes lowerEvent "advisory" then Advisory
  else if includes lowerEvent "statement" then Statement
  else Alert.

(** [calculateNWSPriority(severity)]. *)
Definition calculateNWSPriority (severity : option string) : Z :=
  match severity with
  | None => 1
  | Some severity =>
      let s := toLowerCase severity in
      if String.eqb s "extreme" then 5
      else if String.eqb s "severe" then 4
      else if String.eqb s "moderate" then 3
      else if String.eqb s "minor" then 2
      else 1
  end.

(** What the scraping adapters read off one matched element of a page:
    the trimmed title text, the resolved link, [parseDate] of the date
    text, and the text used as content. *)
Record Element : Type := {
  el_title : string;
  el_url : option string;
  el_date : option Date;
  el_text : string
}.

(** The properties of one feature of the weather-alerts API answer. *)
Record NWSAlert : Type := {
  nws_id : string;
  nws_title : string;      (* properties.headline || properties.event *)
  nws_event : string;
  nws_content : string;    (* properties.description || properties.instruction *)
  nws_date : Date;         (* new Date(properties.onset || properties.sent) *)
  nws_severity : option string
}.

(** The outside world of one aggregation call: the clock, what each page
    request and the alerts request yield, and the random source. *)
Record World : Type := {
  now : Z;
  fetchPage : string -> result (list Element);
  fetchAlerts : result (list NWSAlert);
  random : nat -> Z
}.

Definition toISO (date : option Date) : option Z :=
  match date with
  | Some (ValidDate ms) => Some ms
  | _ => None
  end.

(** The loop body shared by the scraping adapters; [needTitle] is the
    extra test of the CDC adapter. *)
Definition pushElement (w : World) (src : SourceConfig) (timeWindow : Z)
    (needTitle : bool) (el : Element) : list Update :=
  if (negb needTitle || negb (String.eqb (el_title el) ""))
     && isWithinTimeWindow (now w) (el_date el) timeWindow
  then [ {| title := el_title el;
            url := el_url el;
            publishedAt := toISO (el_date el);
            source := name src;
            content := el_text el;
            updateType := classifyUpdateType (el_title el);
            priorityLevel := calculatePriority (el_title el) |} ]
  else [].

Definition scrape (w : World) (src : SourceConfig) (timeWindow : Z)
    (needTitle : bool) : result (list Update) :=
  bind (fetchPage w (newsUrl src))
       (fun elements => Ok (flat_map (pushElement w src timeWindow needTitle) elements)).

Definition fetchFEMAUpdates w src timeWindow := scrape w src timeWindow false.
Definition fetchRedCrossUpdates w src timeWindow := scrape w src timeWindow false.
Definition fetchCDCUpdates w src timeWindow := scrape w src timeWindow true.
Definition fetchGenericUpdates w src timeWindow := scrape w src timeWindow false.

Definition pushAlert (w : World) (src : SourceConfig) (timeWindow : Z)
    (a : NWSAlert) : list Update :=
  if isWithinTimeWindow (now w) (Some (nws_date a)) timeWindow
  then [ {| title := nws_title a;
            url := Some ("https://www.weather.gov/alerts/" ++ nws_id a);
            publishedAt := toISO (Some (nws_date a));
            source := name src;
            content := nws_content a;
            updateType := classifyNWSAlert (nws_event a);
            priorityLevel := calculateNWSPriority (nws_severity a) |} ]
  else [].

Definition fetchNWSUpdates (w : World) (src : SourceConfig) (timeWindow : Z)
  : result (list Update) :=
  tryCatch
    (bind (fetchAlerts w) (fun alerts => Ok (flat_map (pushAlert w src timeWindow) alerts)))
    (fun _ => fetchGenericUpdates w src timeWindow).

(** [fetchFromSource(sourceKey, disaster, timeWindow)]. *)
Definition fetchFromSource (w : World) (sourceKey : string) (timeWindow : Z)
  : result (list Update) :=
  match lookupSource sourceKey sources with
  | None => Throw ("Source " ++ sourceKey ++ " not available")
  | Some src =>
      if negb (enabled src) then Throw ("Source " ++ sourceKey ++ " not available")
      else if String.eqb sourceKey "fema" then fetchFEMAUpdates w src timeWindow
      else if String.eqb sourceKey "redcross" then fetchRedCrossUpdates w src timeWindow
      else if String.eqb sourceKey "cdc" then fetchCDCUpdates w src timeWindow
      else if String.eqb sourceKey "nws" then fetchNWSUpdates w src timeWindow
      else fetchGenericUpdates w src timeWindow
  end.

(** [filterRelevantUpdates(updates, disaster)]. *)
Definition isRelevant (disaster : Disaster) (update : Update) : bool :=
  let content := toLowerCase (title update ++ " " ++ content update) in
  let hasKeywords :=
    existsb (fun keyword => includes content (toLowerCase keyword)) disasterKeywords in
  let hasTags :=
    match tags disaster with
    | Some tags => existsb (fun tag => includes content (toLowerCase tag)) tags
    | None => false
    end in
  let hasLocation :=
    match location_name disaster with
    | Some location_name =>
        if String.eqb location_name "" then false
        else includes content (toLowerCase location_name)
    | None => false
    end in
  hasKeywords || hasTags || hasLocation.

Definition filterRelevantUpdates (updates : list Update) (disaster : Disaster)
  : list Update :=
  List.filter (isRelevant disaster) updates.

(** The score computed for one update inside [rankUpdatesByRelevance]. *)
Definition scoreUpdate (now : Z) (disaster : Disaster) (update : Update) : Q :=
  let relevanceScore := 0 in
  let content := toLowerCase (title update ++ " " ++ content update) in
  (* Score for disaster tags *)
  let relevanceScore :=
    match tags disaster with
    | Some tags =>
        fold_left (fun relevanceScore tag =>
                     if includes content (toLowerCase tag)
                     then relevanceScore + 0.3 else relevanceScore)
                  tags relevanceScore
    | None => relevanceScore
    end in
  (* Score for location *)
  let relevanceScore :=
    match location_name disaster with
    | Some location_name =>
        if negb (String.eqb location_name "")
           && includes content (toLowerCase location_name)
        then relevanceScore + 0.4 else relevanceScore
    | None => relevanceScore
    end in
  (* Score for priority level *)
  let relevanceScore :=
    relevanceScore
    + inject_Z (if (priorityLevel update =? 0)%Z then 1 else priorityLevel update) * 0.1 in
  (* Score for recency *)
  match publishedAt update with
  | Some published =>
      let age := (now - published)%Z in
      let ageHours := inject_Z age / inject_Z (1000 * 60 * 60) in
      if negb (Qle_bool 24 ageHours) then relevanceScore + 0.2
      else if negb (Qle_bool 48 ageHours) then relevanceScore + 0.1
      else relevanceScore
  | None => relevanceScore
  end.

Definition byRelevance (a b : RankedUpdate) : Q := relevanceScore b - relevanceScore a.

(** [rankUpdatesByRelevance(updates, disaster)]. *)
Definition rankUpdatesByRelevance (now : Z) (updates : list Update) (disaster : Disaster)
  : list RankedUpdate :=
  sort byRelevance
       (map (fun update => {| update := update;
                              relevanceScore := scoreUpdate now disaster update |})
            updates).

(** [generateMockUpdates(disaster)]. *)
Record MockTemplate : Type := {
  t_title : string;
  t_content : string;
  t_updateType : UpdateType;
  t_priorityLevel : Z
}.

Definition mockTemplates : list MockTemplate :=
  [ {| t_title := "${source} Issues ${type} for ${location} Due to ${tag}";
       t_content := "Official ${type} has been issued for ${location} area due to ongoing ${tag}. Residents should take immediate precautions.";
       t_updateType := Alert;
       t_priorityLevel := 4 |};
    {| t_title := "Relief Operations Continue in ${location} After ${tag}";
       t_content := "Emergency response teams continue relief operations in ${location} following the ${tag}. Multiple shelters are operational.";
       t_updateType := StatusUpdate;
       t_priorityLevel := 2 |};
    {| t_title := "Evacuation Routes Established for ${location} ${tag} Response";
       t_content := "Local authorities have established evacuation routes for residents in ${location} affected by the ${tag}.";
       t_updateType := Evacuation;
       t_priorityLevel := 5 |} ].

Definition mockSources : list string :=
  [ "FEMA"; "Red Cross"; "Emergency Management"; "National Weather Service" ].
Definition mockTypes : list string := [ "Warning"; "Advisory"; "Alert"; "Update" ].

(** [x || fallback] on a string that may be missing. *)
Definition orElse (x : option string) (fallback : string) : string :=
  match x with
  | Some s => if String.eqb s "" then fallback else s
  | None => fallback
  end.

Definition decimal (n : nat) : string := NilEmpty.string_of_uint (Nat.to_uint n).

Definition mockUpdate (w : World) (disaster : Disaster) (index : nat)
    (template : MockTemplate) : RankedUpdate :=
  let source := nth (index mod List.length mockSources) mockSources "" in
  let type := nth (index mod List.length mockTypes) mockTypes "" in
  let location := orElse (location_name disaster) "Affected Area" in
  let tag := orElse (match tags disaster with
                     | Some (t :: _) => Some t
                     | _ => None
                     end) "emergency" in
  {| update :=
       {| title := replace (replace (replace (replace (t_title template)
                      "${source}" source) "${type}" type) "${location}" location)
                      "${tag}" tag;
          content := replace (replace (replace (t_content template)
                        "${type}" (toLowerCase type)) "${location}" location)
                        "${tag}" tag;
          url := Some ("https://example.com/update/" ++ decimal index);
          publishedAt := Some (now w - random w index)%Z;
          source := source;
          updateType := t_updateType template;
          priorityLevel := t_priorityLevel template |};
     relevanceScore := 0.8 |}.

Fixpoint mapi {A B} (f : nat -> A -> B) (index : nat) (l : list A) : list B :=
  match l with
  | [] => []
  | x :: l' => f index x :: mapi f (S index) l'
  end.

Definition generateMockUpdates (w : World) (disaster : Disaster) : list RankedUpdate :=
  mapi (mockUpdate w disaster) 0 mockTemplates.

(** The options of [fetchUpdates] after defaults. *)
Record Options : Type := {
  opt_sources : list string;
  maxResults : Z;
  timeWindow : Z
}.

Definition defaultSources : list string :=
  map fst (List.filter (fun kc => enabled (snd kc)) sources).

Definition withDefaults (srcs : option (list string)) (maxR tw : option Z) : Options :=
  {| opt_sources := match srcs with Some l => l | None => defaultSources end;
     maxResults := match maxR with Some n => n | None => 20 end;
     timeWindow := match tw with Some n => n | None => 72 end |}.

(** One element of [fetchPromises]: the adapter call with its own
    [try]/[catch]; every update is re-labelled with the source key. *)
Definition fetchPromise (w : World) (timeWindow : Z) (sourceKey : string)
  : result (list Update) :=
  tryCatch
    (bind (fetchFromSource w sourceKey timeWindow)
          (fun updates =>
             Ok (map (fun update =>
                        {| title := title update; content := content update;
                           url := url update; publishedAt := publishedAt update;
                           source := sourceKey;
                           updateType := updateType update;
                           priorityLevel := priorityLevel update |})
                     updates)))
    (fun _ => Ok []).

(** [results.forEach(...)]: the fulfilled values, concatenated. *)
Definition collect (results : list (settled (list Update))) : list Update :=
  flat_map (fun r => match r with Fulfilled value => value | Rejected _ => [] end)
           results.

(** The function [fetchUpdates] hands to the cache: fan out, merge,
    filter, rank, truncate; the mock list if any of this throws. *)
Definition computeUpdates (w : World) (disaster : Disaster) (options : Options)
  : result (list RankedUpdate) :=
  tryCatch
    (let fetchPromises := map (fetchPromise w (timeWindow options)) (opt_sources options) in
     let results := allSettled fetchPromises in
     let allUpdates := collect results in
     let relevantUpdates := filterRelevantUpdates allUpdates disaster in
     let rankedUpdates := rankUpdatesByRelevance (now w) relevantUpdates disaster in
     Ok (slice0 (maxResults options) rankedUpdates))
    (fun _ => Ok (generateMockUpdates w disaster)).

(** [fetchUpdates(disasterId, disaster, options)] through the cache. *)
Definition fetchUpdates (CACHE_TTL : option Z) (w : World) (disasterId : string)
    (disaster : Disaster) (options : Options)
    (tbl : gmap string (Cache.entry (list RankedUpdate)))
  : result (nullable (list RankedUpdate)) * gmap string (Cache.entry (list RankedUpdate)) :=
  let cacheKey :=
    Cache.generateKey "official_updates" disasterId
      (Cache.StringInput (String.concat "," (opt_sources options))) in
  let '(r, (tbl, _)) :=
    Cache.getOrSet CACHE_TTL (now w) (now w) cacheKey
      (fun _ : unit =>
         (match computeUpdates w disaster options with
          | Ok l => Ok (Val l)
          | Throw e => Throw e
          end, tt))
      (Some 1800%Z) (Some "official_updates") (tbl, tt) in
  (r, tbl).

(** *** The ranking with its scores as a parameter

    The scoring loop of [rankUpdatesByRelevance] adds its bonuses as
    floating-point numbers; [scoreUpdate] adds them exactly, so the two may
    differ in the last place, and two updates whose exact sums tie need not
    tie in the program.  In the three definitions below the number the loop
    leaves in [relevanceScore] is a function [score] of the update: what is
    shown of them for every [score] holds of the exact sums and of the
    rounded ones alike.  The comparator is the same: the difference of two
    finite floating-point numbers has the sign of their exact difference. *)
Definition withScore (score : Update -> Q) (update : Update) : RankedUpdate :=
  {| update := update; relevanceScore := score update |}.

Definition rankUpdatesWith (score : Update -> Q) (updates : list Update)
  : list RankedUpdate :=
  sort byRelevance (map (withScore score) updates).

Definition computeUpdatesWith (score : Update -> Q) (w : World) (disaster : Disaster)
    (options : Options) : result (list RankedUpdate) :=
  tryCatch
    (let fetchPromises := map (fetchPromise w (timeWindow options)) (opt_sources options) in
     let results := allSettled fetchPromises in
     let allUpdates := collect results in
     let relevantUpdates := filterRelevantUpdates allUpdates disaster in
     let rankedUpdates := rankUpdatesWith score relevantUpdates in
     Ok (slice0 (maxResults options) rankedUpdates))
    (fun _ => Ok (generateMockUpdates w disaster)).

Definition fetchUpdatesWith (score : Update -> Q) (CACHE_TTL : option Z) (w : World)
    (disasterId : string) (disaster : Disaster) (options : Options)
    (tbl : gmap string (Cache.entry (list RankedUpdate)))
  : result (nullable (list RankedUpdate)) * gmap string (Cache.entry (list RankedUpdate)) :=
  let cacheKey :=
    Cache.generateKey "official_updates" disasterId
      (Cache.StringInput (String.concat "," (opt_sources options))) in
  let '(r, (tbl, _)) :=
    Cache.getOrSet CACHE_TTL (now w) (now w) cacheKey
      (fun _ : unit =>
         (match computeUpdatesWith score w disaster options with
          | Ok l => Ok (Val l)
          | Throw e => Throw e
          end, tt))
      (Some 1800%Z) (Some "official_updates") (tbl, tt) in
  (r, tbl).

(** [healthCheck()]: the aggregation call on a test disaster with
    [sources: ['mock']]; healthy when it returns at least one update,
    unhealthy when it returns none or throws. *)
Definition healthCheck (CACHE_TTL : option Z) (w : World)
    (tbl : gmap string (Cache.entry (list RankedUpdate)))
  : bool * gmap string (Cache.entry (list RankedUpdate)) :=
  let mockDisaster :=
    {| id := "test"; location_name := Some "Test City"; tags := Some ["flood"] |} in
  let (r, tbl) :=
    fetchUpdates CACHE_TTL w "test" mockDisaster
      {| opt_sources := ["mock"]; maxResults := 3; timeWindow := 72 |} tbl in
  (match r with
   | Ok (Val updates) => (0 <? List.length updates)%nat
   | _ => false
   end, tbl).

End OfficialUpdates.

(* ===================================================================== *)
(** ** services/socialMedia: class SocialMediaService                    *)
(* ===================================================================== *)

Module SocialMedia.
Import JS Domain.
Local Open Scope string_scope.
Local Open Scope Q_scope.

Definition disasterKeywords : list string :=
  [ "emergency"; "disaster"; "flood"; "fire"; "earthquake"; "storm";
    "hurricane"; "tornado"; "evacuation"; "rescue"; "help needed";
    "urgent"; "sos"; "trapped"; "stranded"; "damage"; "shelter";
    "relief"; "aid"; "assistance"; "emergency services" ].

Definition urgentKeywords : list string :=
  [ "urgent"; "sos"; "emergency"; "help"; "trapped"; "stranded";
    "life threatening"; "critical"; "immediate"; "now"; "asap" ].

Inductive Platform : Type := Twitter | Bluesky | Mock.

Inductive Classification : Type :=
| HelpRequest | OfferHelp | Information | GeneralPost.

(** [post.metrics]; the Bluesky adapter writes no [retweets]. *)
Record Metrics : Type := {
  likes : option Z;
  retweets : option Z;
  replies : option Z
}.

(** A post object.  The adapters fill the first seven fields;
    [processPost] adds the last three (its [keywords] and [processedAt]
    are left out: nothing below reads them). *)
Record Post : Type := {
  post_id : string;
  content : string;
  author : string;
  createdAt : Z;
  platform : Platform;
  metrics : option Metrics;
  verified : bool;
  isUrgent : option bool;
  classification : option Classification;
  relevanceScore : option Q
}.

(** A case-insensitive regular expression that is an alternation of
    literal words, tested against [content]. *)
Definition testAny (words : list string) (content : string) : bool :=
  existsb (fun word => includes (toLowerCase content) word) words.

(** [detectUrgency(content)]; [null] is rendered as [false]. *)
Definition detectUrgency (content : string) : bool :=
  testAny urgentKeywords content.

(** [classifyPost(content)]. *)
Definition classifyPost (content : string) : Classification :=
  let helpPattern := [ "help"; "assistance"; "need"; "trapped"; "stranded" ] in
  let offerPattern := [ "offering"; "volunteer"; "donate"; "shelter"; "supplies" ] in
  let infoPattern := [ "update"; "report"; "status"; "confirmed"; "official" ] in
  if testAny helpPattern content then HelpRequest
  else if testAny offerPattern content then OfferHelp
  else if testAny infoPattern content then Information
  else GeneralPost.

(** [x || 0] on a number that may be missing. *)
Definition orZero (x : option Z) : Z :=
  match x with Some n => n | None => 0%Z end.

Definition truthy (b : option bool) : bool :=
  match b with Some true => true | _ => false end.

(** [calculateRelevance(post, disaster)]. *)
Definition calculateRelevance (post : Post) (disaster : Disaster) : Q :=
  let score := 0.5 in
  (* Check for disaster tags *)
  let score :=
    match tags disaster with
    | Some tags =>
        fold_left (fun score tag =>
                     if includes (toLowerCase (content post)) (toLowerCase tag)
                     then score + 0.2 else score)
                  tags score
    | None => score
    end in
  (* Check for location mentions *)
  let score :=
    match location_name disaster with
    | Some location_name =>
        if String.eqb location_name "" then score
        else
          let locationParts := split "," (toLowerCase location_name) in
          fold_left (fun score part =>
                       if includes (toLowerCase (content post)) (trim part)
                       then score + 0.2 else score)
                    locationParts score
    | None => score
    end in
  (* Boost for urgency *)
  let score := if truthy (isUrgent post) then score + 0.3 else score in
  (* Boost for engagement *)
  let score :=
    match metrics post with
    | Some m =>
        let totalEngagement := (orZero (likes m) + orZero (retweets m))%Z in
        let score := if (10 <? totalEngagement)%Z then score + 0.1 else score in
        if (50 <? totalEngagement)%Z then score + 0.1 else score
    | None => score
    end in
  (* Boost for verified accounts *)
  let score := if verified post then score + 0.1 else score in
  Qmin score 1.0.

(** [processPost(post, disaster)]: the score is computed from [post], the
    object as it came in, not from the enriched copy. *)
Definition processPost (post : Post) (disaster : Disaster) : Post :=
  {| post_id := post_id post; content := content post; author := author post;
     createdAt := createdAt post; platform := platform post;
     metrics := metrics post; verified := verified post;
     isUrgent := Some (detectUrgency (content post));
     classification := Some (classifyPost (content post));
     relevanceScore := Some (calculateRelevance post disaster) |}.

(** The comparator of [fetchReports]: urgency first, then recency. *)
Definition byUrgencyThenRecency (a b : Post) : Q :=
  if negb (Bool.eqb (truthy (isUrgent a)) (truthy (isUrgent b)))
  then inject_Z (Z.b2z (truthy (isUrgent b)) - Z.b2z (truthy (isUrgent a)))
  else inject_Z (createdAt b - createdAt a).

(** What [generateMockPosts] draws from [Math.random] for one post. *)
Record Draw : Type := {
  d_template : nat;     (* Math.floor(Math.random() * mockTemplates.length) *)
  d_author : nat;       (* Math.floor(Math.random() * mockAuthors.length) *)
  d_age : Z;            (* Math.random() * 24 * 60 * 60 * 1000, in ms *)
  d_likes : Z;
  d_retweets : Z;
  d_replies : Z;
  d_verified : bool     (* Math.random() > 0.8 *)
}.

Definition mockTemplates : list string :=
  [ "Need help! ${tag} in ${location}. Roads are blocked and we can't get out.";
    "Anyone know if shelters are open near ${location}? ${tag} getting worse.";
    "Volunteer here! Helping with ${tag} relief in ${location}. Bring supplies.";
    "URGENT: Family trapped in ${location} due to ${tag}. Send help!";
    "Power is out in ${location}. ${tag} caused major damage to infrastructure.";
    "Red Cross shelter available at ${location}. ${tag} victims welcome.";
    "Food distribution happening now at ${location} for ${tag} victims.";
    "Medical assistance needed in ${location}. ${tag} casualties reported.";
    "Evacuation routes from ${location} are clear. Avoid downtown due to ${tag}.";
    "Water supply contaminated in ${location} after ${tag}. Boil before drinking." ].

Definition mockAuthors : list string :=
  [ "citizen_reporter"; "local_news_99"; "emergency_volunteer"; "resident_alert";
    "disaster_watch"; "community_helper"; "safety_first"; "neighbor_network";
    "crisis_update"; "help_coordinator"; "relief_worker"; "local_resident" ].

Definition mockPost (now : Z) (disaster : Disaster) (i : nat) (d : Draw) : Post :=
  let location := OfficialUpdates.orElse (location_name disaster) "affected area" in
  let primaryTag := OfficialUpdates.orElse (match tags disaster with
                                           | Some (t :: _) => Some t
                                           | _ => None
                                           end) "emergency" in
  let template := nth (d_template d) mockTemplates "" in
  {| post_id := "mock_" ++ id disaster ++ "_" ++ OfficialUpdates.decimal i;
     content := replace (replace template "${location}" location) "${tag}" primaryTag;
     author := nth (d_author d) mockAuthors "";
     createdAt := (now - d_age d)%Z;
     platform := Mock;
     metrics := Some {| likes := Some (d_likes d); retweets := Some (d_retweets d);
                        replies := Some (d_replies d) |};
     verified := d_verified d;
     isUrgent := None; classification := None; relevanceScore := None |}.

(** [generateMockPosts(disaster, count)]: the loop [for (i = 0; i < count; i++)]. *)
Definition generateMockPosts (now : Z) (draws : nat -> Draw) (disaster : Disaster)
    (count : Z) : list Post :=
  map (fun i => mockPost now disaster i (draws i)) (seq 0 (Z.to_nat count)).

(** The outside world of one [fetchReports] call. *)
Record World : Type := {
  now : Z;
  fetchTwitterPosts : result (list Post);
  blueskySearch : result (list Post);
  draws : nat -> Draw
}.

(** [fetchBlueskyPosts]: any failure is logged and becomes no post. *)
Definition fetchBlueskyPosts (w : World) : result (list Post) :=
  tryCatch (blueskySearch w) (fun _ => Ok []).

(** Lines "Process and enrich posts" to the final [slice]. *)
Definition processAndSort (posts : list Post) (disaster : Disaster) (maxResults : Z)
  : list Post :=
  let processedPosts := map (fun post => processPost post disaster) posts in
  let processedPosts := sort byUrgencyThenRecency processedPosts in
  slice0 maxResults processedPosts.

(** The function [fetchReports] hands to the cache. *)
Definition computeReports (w : World) (provider : Platform) (disaster : Disaster)
    (maxResults : Z) : result (list Post) :=
  tryCatch
    (bind (match provider with
           | Twitter => fetchTwitterPosts w
           | Bluesky => fetchBlueskyPosts w
           | Mock => Ok (generateMockPosts (now w) (draws w) disaster maxResults)
           end)
          (fun posts => Ok (processAndSort posts disaster maxResults)))
    (fun _ => Ok (generateMockPosts (now w) (draws w) disaster (Z.min maxResults 10))).


(** [extractKeywords(content)]. *)
Definition extractKeywords (content : string) : list string :=
  let words := splitWhiteSpace (toLowerCase content) in
  let keywords :=
    flat_map (fun word =>
                let cleanWord := keepWordChars word in
                if arrayIncludes disasterKeywords cleanWord
                   || arrayIncludes urgentKeywords cleanWord
                then [cleanWord] else [])
             words in
  unique [] keywords.

(** The array [terms.slice(0, 10)] of [buildSearchQuery(disaster)]. *)
Definition searchTerms (disaster : Disaster) : list string :=
  let terms : list string := [] in
  let terms :=
    match tags disaster with
    | Some (t :: ts) => (terms ++ t :: ts)%list
    | _ => terms
    end in
  let terms :=
    match location_name disaster with
    | Some location_name =>
        if String.eqb location_name "" then terms
        else (terms ++ map trim (split "," location_name))%list
    | None => terms
    end in
  let terms := (terms ++ ["emergency"; "disaster"; "help"])%list in
  firstn 10 terms.

(** [buildSearchQuery(disaster)]. *)
Definition buildSearchQuery (disaster : Disaster) : string :=
  String.concat " OR " (searchTerms disaster).

Definition providerName (provider : Platform) : string :=
  match provider with
  | Twitter => "twitter"
  | Bluesky => "bluesky"
  | Mock => "mock"
  end.

(** [fetchReports(disasterId, disaster, { provider, maxResults })] through
    the cache. *)
Definition fetchReports (CACHE_TTL : option Z) (w : World) (disasterId : string)
    (disaster : Disaster) (provider : Platform) (maxResults : Z)
    (tbl : gmap string (Cache.entry (list Post)))
  : result (nullable (list Post)) * gmap string (Cache.entry (list Post)) :=
  let searchQuery := buildSearchQuery disaster in
  let cacheKey :=
    Cache.generateKey "social_media" (providerName provider ++ "_" ++ disasterId)
                      (Cache.StringInput searchQuery) in
  let '(r, (tbl, _)) :=
    Cache.getOrSet CACHE_TTL (now w) (now w) cacheKey
      (fun _ : unit =>
         (match computeReports w provider disaster maxResults with
          | Ok l => Ok (Val l)
          | Throw e => Throw e
          end, tt))
      (Some 600%Z) (Some ("social_media_" ++ providerName provider)) (tbl, tt) in
  (r, tbl).

(** [healthCheck()]: five mock posts are asked for; healthy when at least
    one post comes back. *)
Definition healthCheck (CACHE_TTL : option Z) (w : World)
    (tbl : gmap string (Cache.entry (list Post)))
  : bool * gmap string (Cache.entry (list Post)) :=
  let mockDisaster :=
    {| id := "test"; location_name := Some "Test City"; tags := Some ["flood"] |} in
  let (r, tbl) := fetchReports CACHE_TTL w "test" mockDisaster Mock 5 tbl in
  (match r with
   | Ok (Val posts) => (0 <? List.length posts)%nat
   | _ => false
   end, tbl).

End SocialMedia.

(* ===================================================================== *)
(** ** Vocabulary of the properties                                      *)
(* ===================================================================== *)

Module Spec.
Import JS.

Definition allChars (p : ascii -> bool) (s : string) : bool :=
  forallb p (list_ascii_of_string s).

Definition isLowerCase (s : string) : bool := allChars (fun c => negb (isUpper c)) s.
Definition hasNoWhiteSpace (s : string) : bool :=
  allChars (fun c => negb (isWhiteSpace c)) s.

(** The digits [0-9a-z] of a base-36 numeral. *)
Definition isDigit36 (c : ascii) : bool :=
  let n := charCode c in
  (((48 <=? n) && (n <=? 57)) || ((97 <=? n) && (n <=? 122)))%N.
Definition isBase36 (s : string) : bool := allChars isDigit36 s.

(** The classifiers as the specification words them: an ordered rule table,
    each rule a set of substrings and the label they give, evaluated over
    the lower-cased text; the first rule with a substring in the text wins.
    [updateTypeRules] and [classificationRules] are the two tables, to be
    compared with [classifyUpdateType] and [classifyPost]. *)
Definition matches (text : string) (words : list string) : bool :=
  existsb (includes text) words.

Fixpoint firstMatch {L : Type} (rules : list (list string * L)) (default : L)
    (text : string) : L :=
  match rules with
  | [] => default
  | (words, label) :: rest =>
      if matches text words then label else firstMatch rest default text
  end.

(** No rule of the list matches the text. *)
Definition noneMatches {L : Type} (text : string) (rules : list (list string * L)) : bool :=
  forallb (fun rule => negb (matches text (fst rule))) rules.

Definition updateTypeRules : list (list string * OfficialUpdates.UpdateType) :=
  [ (["evacuation"], OfficialUpdates.Evacuation);
    (["warning"; "alert"], OfficialUpdates.Alert);
    (["advisory"], OfficialUpdates.Advisory);
    (["update"; "status"], OfficialUpdates.StatusUpdate);
    (["relief"; "aid"], OfficialUpdates.Relief) ]%string.

Definition classificationRules : list (list string * SocialMedia.Classification) :=
  [ (["help"; "assistance"; "need"; "trapped"; "stranded"], SocialMedia.HelpRequest);
    (["offering"; "volunteer"; "donate"; "shelter"; "supplies"], SocialMedia.OfferHelp);
    (["update"; "report"; "status"; "confirmed"; "official"], SocialMedia.Information)
  ]%string.

(** No two records of the list carry the same non-null [url]. *)
Fixpoint distinctUrls (l : list OfficialUpdates.RankedUpdate) : bool :=
  match l with
  | [] => true
  | r :: rest =>
      match OfficialUpdates.url (OfficialUpdates.update r) with
      | Some u =>
          negb (existsb (fun r' => match OfficialUpdates.url (OfficialUpdates.update r') with
                                   | Some u' => String.eqb u u'
                                   | None => false
                                   end) rest)
      | None => true
      end && distinctUrls rest
  end.


(** The order the code gives updates: higher score first. *)
Definition scoreDescending (a b : OfficialUpdates.RankedUpdate) : Prop :=
  (OfficialUpdates.relevanceScore b <= OfficialUpdates.relevanceScore a)%Q.

Definition postScore (p : SocialMedia.Post) : Q :=
  match SocialMedia.relevanceScore p with Some q => q | None => 0%Q end.


Definition urgent (p : SocialMedia.Post) : bool :=
  SocialMedia.truthy (SocialMedia.isUrgent p).


(** [{ ...update, relevanceScore }] for one update. *)
Definition scored (now : Z) (d : Domain.Disaster) (u : OfficialUpdates.Update)
  : OfficialUpdates.RankedUpdate :=
  {| OfficialUpdates.update := u;
     OfficialUpdates.relevanceScore := OfficialUpdates.scoreUpdate now d u |}.

(** Everything the selected adapters delivered, in source order. *)
Definition delivered (w : OfficialUpdates.World) (o : OfficialUpdates.Options)
  : list OfficialUpdates.Update :=
  flat_map (fun sourceKey =>
              match OfficialUpdates.fetchPromise w (OfficialUpdates.timeWindow o) sourceKey with
              | Ok updates => updates
              | Throw _ => []
              end)
           (OfficialUpdates.opt_sources o).

(** Scores tie / sort keys tie. *)
Definition sameScore (q : Q) (r : OfficialUpdates.RankedUpdate) : bool :=
  Qeq_bool (OfficialUpdates.relevanceScore r) q.


(** The signals the score of an update is built from. *)
Definition updateText (u : OfficialUpdates.Update) : string :=
  toLowerCase (OfficialUpdates.title u ++ " " ++ OfficialUpdates.content u)%string.

Definition mentionsTag (d : Domain.Disaster) (u : OfficialUpdates.Update) : bool :=
  match Domain.tags d with
  | Some tags => existsb (fun tag => includes (updateText u) (toLowerCase tag)) tags
  | None => false
  end.

Definition mentionsLocation (d : Domain.Disaster) (u : OfficialUpdates.Update) : bool :=
  match Domain.location_name d with
  | Some l => negb (String.eqb l "") && includes (updateText u) (toLowerCase l)
  | None => false
  end.

(** How many entries of a list satisfy a test, as a number. *)
Fixpoint countMatches {X : Type} (f : X -> bool) (l : list X) : Q :=
  match l with
  | [] => 0
  | x :: l' => ((if f x then 1 else 0) + countMatches f l')%Q
  end.

Definition matchingTags (d : Domain.Disaster) (text : string) : Q :=
  match Domain.tags d with
  | Some tags => countMatches (fun tag => includes text (toLowerCase tag)) tags
  | None => 0
  end.

(** [update.priorityLevel || 1]. *)
Definition priorityOrOne (u : OfficialUpdates.Update) : Z :=
  if (OfficialUpdates.priorityLevel u =? 0)%Z then 1%Z else OfficialUpdates.priorityLevel u.

Definition recencyBonus (now : Z) (u : OfficialUpdates.Update) : Q :=
  match OfficialUpdates.publishedAt u with
  | Some published =>
      if (now - published <? 24 * 3600000)%Z then 0.2
      else if (now - published <? 48 * 3600000)%Z then 0.1 else 0
  | None => 0
  end%Q.

(** The signals the score of a post is built from. *)
Definition matchingParts (d : Domain.Disaster) (text : string) : Q :=
  match Domain.location_name d with
  | Some l =>
      if String.eqb l "" then 0
      else countMatches (fun part => includes text (trim part)) (split "," (toLowerCase l))
  | None => 0
  end.

Definition engagementBonus (p : SocialMedia.Post) : Q :=
  match SocialMedia.metrics p with
  | Some m =>
      let total := (SocialMedia.orZero (SocialMedia.likes m)
                    + SocialMedia.orZero (SocialMedia.retweets m))%Z in
      ((if (10 <? total)%Z then 0.1 else 0) + (if (50 <? total)%Z then 0.1 else 0))%Q
  | None => 0
  end.

(** The score of a post before the cap at 1.0, urgency boost left out. *)
Definition baseScore (p : SocialMedia.Post) (d : Domain.Disaster) : Q :=
  (0.5 + matchingTags d (toLowerCase (SocialMedia.content p)) * 0.2
   + matchingParts d (toLowerCase (SocialMedia.content p)) * 0.2
   + engagementBonus p
   + (if SocialMedia.verified p then 0.1 else 0))%Q.

(** Accessors of the state pair threaded through [Cache.getOrSet]. *)
Definition tableOf {E St R} (x : R * (gmap string E * St)) : gmap string E := fst (snd x).
Definition stateOf {E St R} (x : R * (gmap string E * St)) : St := snd (snd x).

(** A run of [get] calls on one key, at the given times in turn. *)
Fixpoint getMany {V : Type} (times : list Z) (key : string)
    (tbl : gmap string (Cache.entry V))
  : list (nullable V) * gmap string (Cache.entry V) :=
  match times with
  | [] => ([], tbl)
  | t :: times' =>
      let (v, tbl') := Cache.get t key tbl in
      let (vs, tbl'') := getMany times' key tbl' in
      (v :: vs, tbl'')
  end.

(** The value at 31 of the polynomial whose coefficients are the character
    codes of the string, first character highest. *)
Definition polynomial31 (str : string) : Z :=
  fold_left (fun h c => 31 * h + Z.of_N (charCode c))%Z (list_ascii_of_string str) 0%Z.

(** The rows of a table that carry the given source. *)
Definition rowsOfSource {V : Type} (src : string) (data : list (Cache.entry V)) : nat :=
  List.length (List.filter (fun e => match Cache.source e with
                                     | Some s => String.eqb s src
                                     | None => false
                                     end) data).

Definition expiredRows {V : Type} (now : Z) (data : list (Cache.entry V)) : nat :=
  List.length (List.filter (fun e => (Cache.expires_at e <? now)%Z) data).


(** The count [getStats] reports for a source ([undefined] read as 0). *)
Definition countOf (bySource : gmap string nat) (src : string) : nat :=
  match bySource !! src with Some n => n | None => O end.

Definition sumHits {V : Type} (data : list (Cache.entry V)) : Z :=
  fold_right (fun e acc => (Cache.hit_count e + acc)%Z) 0%Z data.


(** The same options with another list of sources. *)
Definition withSources (o : OfficialUpdates.Options) (srcs : list string)
  : OfficialUpdates.Options :=
  {| OfficialUpdates.opt_sources := srcs;
     OfficialUpdates.maxResults := OfficialUpdates.maxResults o;
     OfficialUpdates.timeWindow := OfficialUpdates.timeWindow o |}.

(** The whole ranking of one call, before it is cut to [maxResults]. *)
Definition fullRanking (w : OfficialUpdates.World) (d : Domain.Disaster)
    (o : OfficialUpdates.Options) : list OfficialUpdates.RankedUpdate :=
  OfficialUpdates.rankUpdatesByRelevance (OfficialUpdates.now w)
    (OfficialUpdates.filterRelevantUpdates (delivered w o) d) d.

(** Undated, or dated inside the window of [hours] before [now]. *)
Definition inWindow (now hours : Z) (published : option Z) : Prop :=
  match published with
  | None => True
  | Some t => (now - hours * 3600000 <= t)%Z
  end.

(** The cache key [fetchUpdates] uses. *)
Definition updatesKey (disasterId : string) (o : OfficialUpdates.Options) : string :=
  Cache.generateKey "official_updates" disasterId
    (Cache.StringInput (String.concat "," (OfficialUpdates.opt_sources o))).


(** Free of the character [$], which both opens a placeholder of the mock
    templates and is special in a replacement text. *)
Definition noDollar (s : string) : bool :=
  allChars (fun c => negb (Ascii.eqb c "$")) s.

(** The location and tag the mock generators put into their templates. *)
Definition mockLocation (d : Domain.Disaster) : string :=
  OfficialUpdates.orElse (Domain.location_name d) "Affected Area".

Definition mockTag (d : Domain.Disaster) : string :=
  OfficialUpdates.orElse (match Domain.tags d with
                          | Some (t :: _) => Some t
                          | _ => None
                          end) "emergency".



(** Two texts mention the same tags of the disaster and the same parts of
    its location. *)
Definition sameMentions (d : Domain.Disaster) (text1 text2 : string) : Prop :=
  (forall tags tag, Domain.tags d = Some tags -> In tag tags ->
     includes (toLowerCase text1) (toLowerCase tag)
     = includes (toLowerCase text2) (toLowerCase tag))
  /\ (forall l part, Domain.location_name d = Some l ->
        In part (split "," (toLowerCase l)) ->
        includes (toLowerCase text1) (trim part)
        = includes (toLowerCase text2) (trim part)).

(** The cache key [fetchReports] uses. *)
Definition reportsKey (provider : SocialMedia.Platform) (disasterId : string)
    (d : Domain.Disaster) : string :=
  Cache.generateKey "social_media"
    (SocialMedia.providerName provider ++ "_" ++ disasterId)
    (Cache.StringInput (SocialMedia.buildSearchQuery d)).

End Spec.

(* ===================================================================== *)
(** ** Concrete runs used below                                          *)
(* ===================================================================== *)

Module Examples.
Import JS Domain.
Local Open Scope string_scope.

Definition houstonFlood : Disaster :=
  {| id := "d1"; tags := Some ["flood"]; location_name := Some "Houston, TX" |}.

(** The disaster and options of [healthCheck] in the official-updates
    service: [{ maxResults: 3, sources: ['mock'] }]. *)
Definition healthCheckDisaster : Disaster :=
  {| id := "test"; tags := Some ["flood"]; location_name := Some "Test City" |}.

Definition healthCheckOptions : OfficialUpdates.Options :=
  OfficialUpdates.withDefaults (Some ["mock"]) (Some 3%Z) None.

Definition femaOnly : OfficialUpdates.Options :=
  OfficialUpdates.withDefaults (Some ["fema"]) None None.

Definition femaNewsUrl : string :=
  "https://www.fema.gov/about/news-multimedia/news-stories".

(** A world whose FEMA page lists the given elements and where every other
    request fails. *)
Definition femaPage (now : Z) (elements : list OfficialUpdates.Element)
  : OfficialUpdates.World :=
  {| OfficialUpdates.now := now;
     OfficialUpdates.fetchPage :=
       fun url => if String.eqb url femaNewsUrl then Ok elements
                  else Throw "network error";
     OfficialUpdates.fetchAlerts := Throw "network error";
     OfficialUpdates.random := fun _ => 0%Z |}.

(** A world where every request fails. *)
Definition outage (now : Z) : OfficialUpdates.World :=
  {| OfficialUpdates.now := now;
     OfficialUpdates.fetchPage := fun _ => Throw "network error";
     OfficialUpdates.fetchAlerts := Throw "network error";
     OfficialUpdates.random := fun _ => 0%Z |}.

Definition noon : Z := 1700000000000.
Definition hour : Z := 3600000.

Definition floodStory : OfficialUpdates.Element :=
  {| OfficialUpdates.el_title := "Flood Warning for Harris County";
     OfficialUpdates.el_url := Some "https://www.fema.gov/flood-warning";
     OfficialUpdates.el_date := None;
     OfficialUpdates.el_text := "Flood Warning for Harris County" |}.

Definition olderStory : OfficialUpdates.Element :=
  {| OfficialUpdates.el_title := "Flood shelters open";
     OfficialUpdates.el_url := Some "https://www.fema.gov/shelters";
     OfficialUpdates.el_date := Some (ValidDate (noon - 5 * hour));
     OfficialUpdates.el_text := "Flood shelters open" |}.

Definition newerStory : OfficialUpdates.Element :=
  {| OfficialUpdates.el_title := "Flood roads closed";
     OfficialUpdates.el_url := Some "https://www.fema.gov/roads";
     OfficialUpdates.el_date := Some (ValidDate (noon - 1 * hour));
     OfficialUpdates.el_text := "Flood roads closed" |}.

Definition rawPost (id content : string) (createdAt : Z) : SocialMedia.Post :=
  {| SocialMedia.post_id := id; SocialMedia.content := content;
     SocialMedia.author := "resident"; SocialMedia.createdAt := createdAt;
     SocialMedia.platform := SocialMedia.Twitter;
     SocialMedia.metrics := None; SocialMedia.verified := false;
     SocialMedia.isUrgent := None; SocialMedia.classification := None;
     SocialMedia.relevanceScore := None |}.

Definition calmPost : SocialMedia.Post :=
  rawPost "1" "Flood water is receding downtown" (noon - hour).
Definition urgentPost : SocialMedia.Post :=
  rawPost "2" "Please help, we are stuck on the roof" (noon - 2 * hour).

(** The same post with [isUrgent] set, as [calculateRelevance] may be
    called with. *)
Definition flagged (urgent : bool) (p : SocialMedia.Post) : SocialMedia.Post :=
  {| SocialMedia.post_id := SocialMedia.post_id p;
     SocialMedia.content := SocialMedia.content p;
     SocialMedia.author := SocialMedia.author p;
     SocialMedia.createdAt := SocialMedia.createdAt p;
     SocialMedia.platform := SocialMedia.platform p;
     SocialMedia.metrics := SocialMedia.metrics p;
     SocialMedia.verified := SocialMedia.verified p;
     SocialMedia.isUrgent := Some urgent;
     SocialMedia.classification := SocialMedia.classification p;
     SocialMedia.relevanceScore := SocialMedia.relevanceScore p |}.

Definition bulletin (title : string) : OfficialUpdates.Update :=
  {| OfficialUpdates.title := title;
     OfficialUpdates.content := "River levels are rising";
     OfficialUpdates.url := None;
     OfficialUpdates.publishedAt := Some (noon - hour)%Z;
     OfficialUpdates.source := "fema";
     OfficialUpdates.updateType := OfficialUpdates.General;
     OfficialUpdates.priorityLevel := 1 |}.

(** A compute function that returns the same list every time. *)
Definition constantFetch (v : string) : unit -> result (nullable string) * unit :=
  fun _ => (Ok (Val v), tt).

(** A compute function that finds nothing. *)
Definition emptyFetch : unit -> result (nullable string) * unit :=
  fun _ => (Ok Null, tt).

Definition row (v : string) (expires : Z) (src : string) (hits : Z) : Cache.entry string :=
  {| Cache.value := Val v; Cache.expires_at := expires;
     Cache.source := Some src; Cache.hit_count := hits |}.

Definition twoRows : gmap string (Cache.entry string) :=
  <["geocoding:osm:houston" := row "29.76,-95.37" 90000 "geocoding" 4]>
    (<["gemini:verify_image:a.png" := row "authentic" 5000 "gemini" 0]> ∅).


(** A world whose FEMA page lists three stories, the other requests failing. *)
Definition threeStories : OfficialUpdates.World :=
  femaPage noon [olderStory; floodStory; newerStory].

Definition femaFirst (maxResults : Z) : OfficialUpdates.Options :=
  OfficialUpdates.withDefaults (Some ["fema"]) (Some maxResults) None.


(** What the FEMA adapter makes of [floodStory], relabelled by the call. *)
Definition floodUpdate : OfficialUpdates.Update :=
  {| OfficialUpdates.title := "Flood Warning for Harris County";
     OfficialUpdates.content := "Flood Warning for Harris County";
     OfficialUpdates.url := Some "https://www.fema.gov/flood-warning";
     OfficialUpdates.publishedAt := None;
     OfficialUpdates.source := "fema";
     OfficialUpdates.updateType := OfficialUpdates.Alert;
     OfficialUpdates.priorityLevel := 4 |}.


Definition stormAlert : OfficialUpdates.NWSAlert :=
  {| OfficialUpdates.nws_id := "urn:oid:2.49.0.1.840.0.1";
     OfficialUpdates.nws_title := "Flash Flood Warning issued for Harris County";
     OfficialUpdates.nws_event := "Flash Flood Warning";
     OfficialUpdates.nws_content := "Move to higher ground now.";
     OfficialUpdates.nws_date := ValidDate (noon - hour);
     OfficialUpdates.nws_severity := Some "Severe" |}.

(** A world whose alerts feed answers and whose pages all fail. *)
Definition alertsOnly (alerts : list OfficialUpdates.NWSAlert) : OfficialUpdates.World :=
  {| OfficialUpdates.now := noon;
     OfficialUpdates.fetchPage := fun _ => Throw "network error";
     OfficialUpdates.fetchAlerts := Ok alerts;
     OfficialUpdates.random := fun _ => 0%Z |}.

Definition nwsConfig : OfficialUpdates.SourceConfig :=
  {| OfficialUpdates.name := "National Weather Service";
     OfficialUpdates.newsUrl := "https://www.weather.gov/news/";
     OfficialUpdates.enabled := true |}.


(** A world for [fetchReports] in which both live providers fail. *)
Definition socialOutage : SocialMedia.World :=
  {| SocialMedia.now := noon;
     SocialMedia.fetchTwitterPosts := Throw "Request failed with status code 429";
     SocialMedia.blueskySearch := Throw "Request failed with status code 401";
     SocialMedia.draws := fun i =>
       {| SocialMedia.d_template := i mod 10; SocialMedia.d_author := i mod 12;
          SocialMedia.d_age := (Z.of_nat i * 60000)%Z;
          SocialMedia.d_likes := 3; SocialMedia.d_retweets := 1;
          SocialMedia.d_replies := 0; SocialMedia.d_verified := false |} |}.

(** A world whose Twitter search returns the given posts. *)
Definition twitterFeed (posts : list SocialMedia.Post) : SocialMedia.World :=
  {| SocialMedia.now := noon;
     SocialMedia.fetchTwitterPosts := Ok posts;
     SocialMedia.blueskySearch := Throw "not configured";
     SocialMedia.draws := SocialMedia.draws socialOutage |}.

(** Two posts that differ in their last words only: a plea and a remark. *)
Definition pleaPost : SocialMedia.Post :=
  rawPost "3" "Flood water rising fast on our street, send help now" (noon - hour).
Definition remarkPost : SocialMedia.Post :=
  rawPost "4" "Flood water rising fast on our street, stay safe" (noon - hour).

Definition manyTags : Disaster :=
  {| id := "d3";
     tags := Some ["flood"; "storm"; "surge"; "levee"; "bayou"; "rain"; "wind";
                   "outage"; "rescue"; "shelter"; "boil"];
     location_name := Some "Houston, TX" |}.

End Examples.


(* ===================================================================== *)
(** ** Facts about the base layer                                        *)
(* ===================================================================== *)

Module JSFacts.
Import JS Spec.
#[local] Arguments String.append !s1 s2 : simpl nomatch.

Ltac each_char c :=
  destruct c as [[] [] [] [] [] [] [] []]; vm_compute; try reflexivity; try discriminate.

Lemma toLowerCase_char_not_upper (c : ascii) : isUpper (toLowerCase_char c) = false.
Proof. each_char c. Qed.

Lemma toLowerCase_char_whitespace (c : ascii) :
  isWhiteSpace (toLowerCase_char c) = isWhiteSpace c.
Proof. each_char c. Qed.

Lemma digit36_fixed (c : ascii) :
  isDigit36 c = true ->
  toLowerCase_char c = c /\ isUpper c = false /\ isWhiteSpace c = false.
Proof. each_char c; repeat split; reflexivity. Qed.

Lemma append_assoc (a b c : string) :
  ((a ++ b) ++ c = a ++ (b ++ c))%string.
Proof. induction a as [|x a IH]; simpl; [reflexivity | now rewrite IH]. Qed.

Lemma toLowerCase_app (a b : string) :
  toLowerCase (a ++ b) = (toLowerCase a ++ toLowerCase b)%string.
Proof. induction a as [|c a IH]; simpl; [reflexivity | now rewrite IH]. Qed.

Lemma allChars_app p (a b : string) :
  allChars p (a ++ b) = allChars p a && allChars p b.
Proof.
  unfold allChars. induction a as [|c a IH]; simpl; [reflexivity|].
  rewrite IH. now rewrite andb_assoc.
Qed.

Lemma toLowerCase_isLowerCase (s : string) : isLowerCase (toLowerCase s) = true.
Proof.
  unfold isLowerCase, allChars. induction s as [|c s IH]; simpl; [reflexivity|].
  now rewrite toLowerCase_char_not_upper, IH.
Qed.

Lemma toLowerCase_hasNoWhiteSpace (s : string) :
  hasNoWhiteSpace (toLowerCase s) = hasNoWhiteSpace s.
Proof.
  unfold hasNoWhiteSpace, allChars. induction s as [|c s IH]; simpl; [reflexivity|].
  now rewrite toLowerCase_char_whitespace, IH.
Qed.

Lemma isBase36_fixed (s : string) :
  isBase36 s = true ->
  toLowerCase s = s /\ isLowerCase s = true /\ hasNoWhiteSpace s = true.
Proof.
  unfold isBase36, isLowerCase, hasNoWhiteSpace, allChars.
  induction s as [|c s IH]; simpl; [now repeat split|].
  intros H. apply andb_true_iff in H as [Hc Hs].
  destruct (digit36_fixed c Hc) as (E1 & E2 & E3).
  destruct (IH Hs) as (F1 & F2 & F3).
  rewrite E1, E2, E3, F1, F2, F3. now repeat split.
Qed.

Lemma digit36_isDigit36 (d : N) : (d < 36)%N -> isDigit36 (digit36 d) = true.
Proof.
  intros H.
  assert (In d (map N.of_nat (seq 0 36))) as Hin.
  { apply in_map_iff. exists (N.to_nat d). split; [lia|]. apply in_seq. lia. }
  vm_compute in Hin.
  repeat (destruct Hin as [<- | Hin]; [reflexivity|]). destruct Hin.
Qed.

Lemma toString36_aux_isBase36 (fuel : nat) (n : N) (acc : string) :
  isBase36 acc = true -> isBase36 (toString36_aux fuel n acc) = true.
Proof.
  revert n acc. induction fuel as [|fuel IH]; intros n acc Hacc; simpl; [assumption|].
  assert (isBase36 (String (digit36 (n mod 36)) acc) = true) as H.
  { unfold isBase36, allChars in *. simpl. rewrite Hacc, digit36_isDigit36; [reflexivity|].
    apply N.mod_lt. discriminate. }
  destruct (n / 36 =? 0)%N; [assumption | now apply IH].
Qed.

Lemma toString36_isBase36 (n : N) : isBase36 (toString36 n) = true.
Proof. apply toString36_aux_isBase36. reflexivity. Qed.

(** [toString36] writes the numeral of its argument: reading it back gives
    the number, so the digit loop never stops early. *)
Lemma toString36_aux_acc (fuel : nat) (n : N) (acc : string) :
  toString36_aux fuel n acc = (toString36_aux fuel n EmptyString ++ acc)%string.
Proof.
  revert n acc. induction fuel as [|fuel IH]; intros n acc; simpl; [reflexivity|].
  destruct (n / 36 =? 0)%N; [reflexivity|].
  rewrite (IH _ (String _ acc)), (IH _ (String _ EmptyString)).
  rewrite append_assoc. reflexivity.
Qed.

Lemma parse36_aux_snoc (a : N) (s : string) (c : ascii) :
  parse36_aux a (s ++ String c EmptyString) = (36 * parse36_aux a s + digitValue36 c)%N.
Proof. revert a. induction s as [|d s IH]; intros a; simpl; [reflexivity | apply IH]. Qed.

Lemma digitValue36_digit36 (d : N) : (d < 36)%N -> digitValue36 (digit36 d) = d.
Proof.
  intros H.
  assert (In d (map N.of_nat (seq 0 36))) as Hin.
  { apply in_map_iff. exists (N.to_nat d). split; [lia|]. apply in_seq. lia. }
  vm_compute in Hin.
  repeat (destruct Hin as [<- | Hin]; [reflexivity|]). destruct Hin.
Qed.

Lemma parse36_toString36_aux (fuel : nat) (n : N) :
  (n < 2 ^ N.of_nat fuel)%N -> (0 < fuel)%nat ->
  parse36 (toString36_aux fuel n EmptyString) = n.
Proof.
  revert n. induction fuel as [|fuel IH]; intros n Hn Hf; [lia|].
  simpl. destruct (n / 36 =? 0)%N eqn:E.
  - apply N.eqb_eq in E. unfold parse36. simpl.
    rewrite digitValue36_digit36 by (apply N.mod_lt; discriminate).
    rewrite (N.div_mod n 36) at 2 by discriminate. lia.
  - apply N.eqb_neq in E. rewrite toString36_aux_acc.
    unfold parse36. rewrite parse36_aux_snoc.
    rewrite digitValue36_digit36 by (apply N.mod_lt; discriminate).
    assert (n / 36 < 2 ^ N.of_nat fuel)%N as Hd.
    { rewrite Nat2N.inj_succ, N.pow_succ_r' in Hn.
      apply N.Div0.div_lt_upper_bound. lia. }
    assert (0 < fuel)%nat as Hf'.
    { destruct fuel; [|lia]. change (2 ^ N.of_nat 0)%N with 1%N in Hd.
      apply N.lt_1_r in Hd. contradiction. }
    fold (parse36 (toString36_aux fuel (n / 36) EmptyString)).
    rewrite (IH _ Hd Hf'). rewrite (N.div_mod n 36) at 3 by discriminate. lia.
Qed.

Lemma parse36_toString36 (n : N) : parse36 (toString36 n) = n.
Proof.
  apply parse36_toString36_aux; [|lia].
  rewrite Nat2N.inj_succ, N2Nat.id.
  destruct n as [|p]; [reflexivity|].
  apply N.log2_spec. lia.
Qed.

End JSFacts.


(* ===================================================================== *)
(** ** The time-window filter                                            *)
(* ===================================================================== *)

Module TimeWindowFacts.
Import JS OfficialUpdates.
Local Open Scope Z_scope.

(** What an adapter keeps is decided by [isWithinTimeWindow] alone (the
    adapters other than the CDC one have no further test). *)
Lemma pushElement_kept (w : World) (src : SourceConfig) (tw : Z) (el : Element) :
  pushElement w src tw false el <> [] <->
  isWithinTimeWindow (now w) (el_date el) tw = true.
Proof.
  unfold pushElement. simpl.
  destruct (isWithinTimeWindow (now w) (el_date el) tw); split; intros H;
    try reflexivity; try discriminate; congruence.
Qed.

(** The cutoff is a [Date] of its own: it is valid exactly when it lies
    within [maxTime] of the epoch. *)
Lemma isWithinTimeWindow_dated (now ms timeWindow : Z) :
  isWithinTimeWindow now (Some (ValidDate ms)) timeWindow
  = (Z.abs (now - timeWindow * 3600000) <=? maxTime)
    && (now - timeWindow * 3600000 <=? ms).
Proof.
  unfold isWithinTimeWindow, newDate, dateGe.
  replace (now - timeWindow * 60 * 60 * 1000) with (now - timeWindow * 3600000) by lia.
  destruct (Z.abs (now - timeWindow * 3600000) <=? maxTime); reflexivity.
Qed.

(** C3 (amended).  A record passes the time-window filter exactly when its
    date is missing, or the cutoff [now - timeWindow] hours is a
    representable date (at most [maxTime] ms from the epoch) and the
    record's date is not earlier than it.  One second before the cutoff is
    out; one second after is in exactly when the cutoff is representable; a
    missing date is always in. *)
Theorem isWithinTimeWindow_iff (now : Z) (date : option Date) (timeWindow : Z) :
  (isWithinTimeWindow now date timeWindow = true <->
     date = None \/
     exists ms, date = Some (ValidDate ms)
                /\ Z.abs (now - timeWindow * 3600000) <= maxTime
                /\ now - timeWindow * 3600000 <= ms)
  /\ isWithinTimeWindow now (Some (ValidDate (now - timeWindow * 3600000 - 1000)))
       timeWindow = false
  /\ isWithinTimeWindow now (Some (ValidDate (now - timeWindow * 3600000 + 1000)))
       timeWindow = (Z.abs (now - timeWindow * 3600000) <=? maxTime)
  /\ isWithinTimeWindow now None timeWindow = true.
Proof.
  repeat split.
  - destruct date as [[ms|]|]; intros H.
    + right. exists ms. rewrite isWithinTimeWindow_dated in H.
      apply andb_prop in H as [H1 H2].
      apply Z.leb_le in H1. apply Z.leb_le in H2. auto.
    + simpl in H. discriminate.
    + now left.
  - intros [-> | (ms & -> & H1 & H2)]; [reflexivity|].
    rewrite isWithinTimeWindow_dated.
    apply andb_true_intro. split; apply Z.leb_le; assumption.
  - rewrite isWithinTimeWindow_dated.
    replace (now - timeWindow * 3600000 <=? now - timeWindow * 3600000 - 1000)
      with false by (symmetry; apply Z.leb_gt; lia).
    apply andb_false_r.
  - rewrite isWithinTimeWindow_dated.
    replace (now - timeWindow * 3600000 <=? now - timeWindow * 3600000 + 1000)
      with true by (symmetry; apply Z.leb_le; lia).
    apply andb_true_r.
Qed.

(** C3, the claim as first stated fails: three billion hours before
    [noon] is no representable date, so a record dated [noon], later than
    any such cutoff, is dropped. *)
Lemma huge_window_drops_dated_records :
  Examples.noon - 3000000000 * 3600000 <= Examples.noon
  /\ isWithinTimeWindow Examples.noon (Some (ValidDate Examples.noon)) 3000000000 = false.
Proof. split; [unfold Examples.noon; lia | reflexivity]. Qed.

End TimeWindowFacts.

(* ===================================================================== *)
(** ** The classification rule tables                                    *)
(* ===================================================================== *)

Module ClassifierFacts.
Import JS Spec.

Section FirstMatch.
Context {L : Type}.
Implicit Types (rules earlier later : list (list string * L)) (text : string).

Lemma firstMatch_among earlier words label later default text :
  matches text words = true ->
  In (firstMatch (earlier ++ (words, label) :: later) default text)
     (map snd earlier ++ [label]).
Proof.
  intros Hm. induction earlier as [|[ws l] earlier IH]; simpl.
  - rewrite Hm. now left.
  - destruct (matches text ws); [now left | now right].
Qed.

Lemma firstMatch_first earlier words label later default text :
  noneMatches text earlier = true ->
  matches text words = true ->
  firstMatch (earlier ++ (words, label) :: later) default text = label.
Proof.
  intros Hn Hm. induction earlier as [|[ws l] earlier IH]; simpl in *.
  - now rewrite Hm.
  - apply andb_true_iff in Hn as [Hw Hn].
    destruct (matches text ws); [discriminate | now apply IH].
Qed.

Lemma firstMatch_not_later earlier words label later default text :
  NoDup (map snd (earlier ++ (words, label) :: later) ++ [default]) ->
  matches text words = true ->
  let result := firstMatch (earlier ++ (words, label) :: later) default text in
  ~ In result (map snd later) /\ result <> default.
Proof.
  intros Hnd Hm result.
  pose proof (firstMatch_among earlier words label later default text Hm) as Hin.
  fold result in Hin.
  rewrite map_app in Hnd. simpl in Hnd.
  change (label :: map snd later) with ([label] ++ map snd later) in Hnd.
  rewrite <- !app_assoc in Hnd. rewrite app_assoc in Hnd.
  split.
  - intros Hl. eapply NoDup_app in Hnd as (_ & Hd & _).
    eapply Hd; [apply list_elem_of_In, Hin|]. apply list_elem_of_In, in_or_app. now left.
  - intros He. eapply NoDup_app in Hnd as (_ & Hd & _).
    eapply Hd; [apply list_elem_of_In, Hin|]. apply list_elem_of_In, in_or_app.
    right. rewrite He. now left.
Qed.
End FirstMatch.

Section Tables.
Import OfficialUpdates SocialMedia.

Lemma classifyUpdateType_table (title : string) :
  classifyUpdateType title = firstMatch updateTypeRules General (toLowerCase title).
Proof.
  unfold classifyUpdateType, updateTypeRules, firstMatch, matches, existsb.
  rewrite !orb_false_r. reflexivity.
Qed.

Lemma classifyPost_table (content : string) :
  classifyPost content = firstMatch classificationRules GeneralPost (toLowerCase content).
Proof.
  unfold classifyPost, testAny, classificationRules, firstMatch, matches. reflexivity.
Qed.

Lemma updateType_labels_distinct : NoDup (map snd updateTypeRules ++ [General]).
Proof. repeat constructor; rewrite ?list_elem_of_In; simpl; intuition discriminate. Qed.

Lemma classification_labels_distinct : NoDup (map snd classificationRules ++ [GeneralPost]).
Proof. repeat constructor; rewrite ?list_elem_of_In; simpl; intuition discriminate. Qed.

(** C8.  [classifyUpdateType] is the first-match-wins evaluation, over the
    lower-cased title, of the table evacuation > warning/alert > advisory >
    update/status > relief/aid with default general; [classifyPost] is the
    first-match-wins evaluation of its own ordered table.  A text matching
    a rule gets the label of that rule when no earlier rule matches, and
    otherwise the label of an earlier rule: never the label of a later rule
    and never the default. *)
Theorem classification_first_match_wins :
  (forall title,
     classifyUpdateType title = firstMatch updateTypeRules General (toLowerCase title))
  /\ (forall content,
        classifyPost content
        = firstMatch classificationRules GeneralPost (toLowerCase content))
  /\ (forall title earlier words label later,
        updateTypeRules = earlier ++ (words, label) :: later ->
        matches (toLowerCase title) words = true ->
        (noneMatches (toLowerCase title) earlier = true ->
         classifyUpdateType title = label)
        /\ In (classifyUpdateType title) (map snd earlier ++ [label])
        /\ ~ In (classifyUpdateType title) (map snd later)
        /\ classifyUpdateType title <> General)
  /\ (forall content earlier words label later,
        classificationRules = earlier ++ (words, label) :: later ->
        matches (toLowerCase content) words = true ->
        (noneMatches (toLowerCase content) earlier = true ->
         classifyPost content = label)
        /\ In (classifyPost content) (map snd earlier ++ [label])
        /\ ~ In (classifyPost content) (map snd later)
        /\ classifyPost content <> GeneralPost).
Proof.
  split; [exact classifyUpdateType_table|].
  split; [exact classifyPost_table|].
  split.
  - intros title earlier words label later Ht Hm.
    pose proof updateType_labels_distinct as Hnd.
    rewrite classifyUpdateType_table, Ht. rewrite Ht in Hnd.
    split; [intros Hn; now apply firstMatch_first|].
    split; [now apply firstMatch_among|].
    now apply firstMatch_not_later.
  - intros content earlier words label later Ht Hm.
    pose proof classification_labels_distinct as Hnd.
    rewrite classifyPost_table, Ht. rewrite Ht in Hnd.
    split; [intros Hn; now apply firstMatch_first|].
    split; [now apply firstMatch_among|].
    now apply firstMatch_not_later.
Qed.

(** A title that matches both the evacuation rule and the warning rule is
    an evacuation. *)
Lemma classification_first_match_wins_witness :
  classifyUpdateType "Evacuation Warning for Harris County" = Evacuation
  /\ classifyUpdateType "Flood Warning: status update" <> StatusUpdate
  /\ classifyPost "Volunteers needed, shelter open" = HelpRequest.
Proof.
  destruct classification_first_match_wins as (_ & _ & Hu & Hp).
  split; [|split].
  - apply (Hu "Evacuation Warning for Harris County"%string
              [] ["evacuation"%string] Evacuation
              [ (["warning"; "alert"], Alert); (["advisory"], Advisory);
                (["update"; "status"], StatusUpdate); (["relief"; "aid"], Relief) ]%string);
      reflexivity.
  - intros He.
    destruct (Hu "Flood Warning: status update"%string
                 [ (["evacuation"], Evacuation) ]%string
                 ["warning"; "alert"]%string Alert
                 [ (["advisory"], Advisory);
                   (["update"; "status"], StatusUpdate); (["relief"; "aid"], Relief)
                 ]%string eq_refl eq_refl) as (_ & _ & Hlater & _).
    apply Hlater. rewrite He. simpl. tauto.
  - apply (Hp "Volunteers needed, shelter open"%string
              [] ["help"; "assistance"; "need"; "trapped"; "stranded"]%string HelpRequest
              [ (["offering"; "volunteer"; "donate"; "shelter"; "supplies"], OfferHelp);
                (["update"; "report"; "status"; "confirmed"; "official"], Information)
              ]%string);
      reflexivity.
Defined.
End Tables.

End ClassifierFacts.

(* ===================================================================== *)
(** ** Array.prototype.sort: ordered, a permutation, stable              *)
(* ===================================================================== *)

Module SortFacts.
Import JS.
Local Open Scope Q_scope.

Section Sorting.
Context {A : Type} (compareFn : A -> A -> Q).

(** [a] may stand before [b]. *)
Local Abbreviation before := (fun a b : A => compareFn a b <= 0).

Lemma placedAfter_false (a b : A) : placedAfter compareFn a b = false <-> before a b.
Proof.
  unfold placedAfter. rewrite negb_false_iff. apply Qle_bool_iff.
Qed.

Lemma placedAfter_true (a b : A) : placedAfter compareFn a b = true <-> 0 < compareFn a b.
Proof.
  unfold placedAfter. rewrite negb_true_iff. split; intros H.
  - apply Qnot_le_lt. intros Hle. apply Qle_bool_iff in Hle. congruence.
  - destruct (Qle_bool (compareFn a b) 0) eqn:E; [|reflexivity].
    apply Qle_bool_iff in E. lra.
Qed.

Lemma insertSorted_perm (x : A) (l : list A) :
  Permutation (insertSorted compareFn x l) (x :: l).
Proof.
  induction l as [|y l IH]; simpl; [reflexivity|].
  destruct (placedAfter compareFn x y); [|reflexivity].
  rewrite IH. apply perm_swap.
Qed.

Lemma sort_perm (l : list A) : Permutation (sort compareFn l) l.
Proof.
  induction l as [|x l IH]; simpl; [reflexivity|].
  rewrite insertSorted_perm. now constructor.
Qed.

(** Stability: elements that the comparator does not order strictly keep
    their relative order.  [p] picks out such a family. *)
Lemma insertSorted_filter (p : A -> bool) (x : A) (l : list A) :
  (forall y, p x = true -> p y = true -> before x y) ->
  List.filter p (insertSorted compareFn x l) = List.filter p (x :: l).
Proof.
  intros Htie. induction l as [|y l IH]; simpl; [reflexivity|].
  destruct (placedAfter compareFn x y) eqn:E; [|reflexivity].
  simpl. rewrite IH. simpl.
  destruct (p x) eqn:Px, (p y) eqn:Py; try reflexivity.
  apply placedAfter_true in E. specialize (Htie y eq_refl Py). simpl in Htie. lra.
Qed.

Lemma sort_filter (p : A -> bool) (l : list A) :
  (forall a b, p a = true -> p b = true -> before a b) ->
  List.filter p (sort compareFn l) = List.filter p l.
Proof.
  intros Htie. induction l as [|x l IH]; simpl; [reflexivity|].
  rewrite insertSorted_filter by (intros y; apply Htie).
  simpl. now rewrite IH.
Qed.

(** Order: needs the comparator to be consistent. *)
Hypothesis asym : forall a b, 0 < compareFn a b -> before b a.
Hypothesis trans : forall a b c, before a b -> before b c -> before a c.

Lemma insertSorted_sorted (x : A) (l : list A) :
  StronglySorted before l -> StronglySorted before (insertSorted compareFn x l).
Proof using asym trans.
  intros Hs. induction Hs as [|y l Hs IH Hy]; simpl.
  - repeat constructor.
  - destruct (placedAfter compareFn x y) eqn:E.
    + constructor; [exact IH|].
      apply List.Forall_forall. intros z Hz.
      apply (Permutation_in _ (insertSorted_perm x l)) in Hz as [<- | Hz].
      * apply asym. now apply placedAfter_true.
      * rewrite List.Forall_forall in Hy. now apply Hy.
    + apply placedAfter_false in E.
      constructor; [now constructor|].
      constructor; [exact E|].
      rewrite List.Forall_forall in *. intros z Hz. eapply trans; [exact E | now apply Hy].
Qed.

Lemma sort_sorted (l : list A) : StronglySorted before (sort compareFn l).
Proof using asym trans.
  induction l as [|x l IH]; simpl; [constructor | now apply insertSorted_sorted].
Qed.
End Sorting.

Lemma firstn_subset {A} (n : nat) (l : list A) (y : A) : In y (firstn n l) -> In y l.
Proof.
  revert n. induction l as [|x l IH]; intros [|n]; simpl; try tauto.
  intros [-> | H]; [now left | right; eapply IH, H].
Qed.



Lemma StronglySorted_weaken {A} (R R' : A -> A -> Prop) (l : list A) :
  (forall a b, R a b -> R' a b) -> StronglySorted R l -> StronglySorted R' l.
Proof.
  intros Hw Hs. induction Hs as [|x l Hs IH Hx]; constructor; [exact IH|].
  rewrite List.Forall_forall in *. intros y Hy. apply Hw. now apply Hx.
Qed.

End SortFacts.

(* ===================================================================== *)
(** ** Official updates: scoring, ranking, the aggregation call          *)
(* ===================================================================== *)

Module OfficialUpdatesFacts.
Import JS Domain Spec OfficialUpdates SortFacts.
Local Open Scope Q_scope.

(** *** The score in closed form *)

Lemma countMatches_nonneg {X} (f : X -> bool) (l : list X) : 0 <= countMatches f l.
Proof. induction l as [|x l IH]; simpl; [lra|]. destruct (f x); lra. Qed.

Lemma countMatches_none {X} (f : X -> bool) (l : list X) :
  existsb f l = false -> countMatches f l == 0.
Proof.
  induction l as [|x l IH]; simpl; [reflexivity|].
  intros H. apply orb_false_iff in H as [-> H]. rewrite (IH H). lra.
Qed.

Lemma countMatches_some {X} (f : X -> bool) (l : list X) :
  existsb f l = true -> 1 <= countMatches f l.
Proof.
  induction l as [|x l IH]; simpl; [discriminate|].
  pose proof (countMatches_nonneg f l). destruct (f x); simpl; intros H'; [lra|].
  specialize (IH H'). lra.
Qed.

Lemma fold_bonus {X} (f : X -> bool) (bonus : Q) (l : list X) (init : Q) :
  fold_left (fun acc x => if f x then acc + bonus else acc) l init
  == init + countMatches f l * bonus.
Proof.
  revert init. induction l as [|x l IH]; intros init; simpl; [lra|].
  rewrite IH. destruct (f x); lra.
Qed.

Lemma ageHours_lt (age hours : Z) :
  negb (Qle_bool (inject_Z hours) (inject_Z age / inject_Z (1000 * 60 * 60)))
  = (age <? hours * 3600000)%Z.
Proof.
  unfold Qle_bool, Qdiv, Qmult, Qinv, inject_Z.
  change (1000 * 60 * 60)%Z with 3600000%Z. cbn [Qnum Qden].
  rewrite Z.ltb_antisym. f_equal. f_equal; lia.
Qed.

Lemma scoreUpdate_closed_form (now : Z) (d : Disaster) (u : Update) :
  scoreUpdate now d u
  == matchingTags d (updateText u) * 0.3
     + (if mentionsLocation d u then 0.4 else 0)
     + inject_Z (priorityOrOne u) * 0.1
     + recencyBonus now u.
Proof.
  unfold scoreUpdate, matchingTags, mentionsLocation, recencyBonus, priorityOrOne.
  fold (updateText u).
  set (prio := inject_Z (if (priorityLevel u =? 0)%Z then 1%Z else priorityLevel u) * 0.1).
  assert (forall x y : Q,
            match publishedAt u with
            | Some published =>
                if negb (Qle_bool 24 (inject_Z (now - published) / inject_Z (1000 * 60 * 60)))
                then x + y + 0.2
                else if negb (Qle_bool 48 (inject_Z (now - published)
                                            / inject_Z (1000 * 60 * 60)))
                     then x + y + 0.1 else x + y
            | None => x + y
            end
            == x + y +
               match publishedAt u with
               | Some published =>
                   if (now - published <? 24 * 3600000)%Z then 0.2
                   else if (now - published <? 48 * 3600000)%Z then 0.1 else 0
               | None => 0
               end) as Hrec.
  { intros x y. destruct (publishedAt u) as [published|]; [|lra].
    rewrite <- (ageHours_lt (now - published) 24), <- (ageHours_lt (now - published) 48).
    change (inject_Z 24) with 24. change (inject_Z 48) with 48.
    destruct (negb (Qle_bool 24 _)); [lra|]. destruct (negb (Qle_bool 48 _)); lra. }
  rewrite Hrec. clear Hrec.
  assert (match tags d with
          | Some tags =>
              fold_left (fun relevanceScore tag =>
                           if includes (updateText u) (toLowerCase tag)
                           then relevanceScore + 0.3 else relevanceScore) tags 0
          | None => 0
          end
          == match tags d with
             | Some tags => countMatches (fun tag => includes (updateText u) (toLowerCase tag)) tags
             | None => 0
             end * 0.3) as Htags.
  { destruct (tags d) as [ts|]; [|lra]. rewrite fold_bonus. lra. }
  destruct (location_name d) as [l|].
  - destruct (negb (String.eqb l "") && includes (updateText u) (toLowerCase l));
      rewrite Htags; lra.
  - rewrite Htags. lra.
Qed.

(** *** Ranking *)

Lemma byRelevance_asym (a b : RankedUpdate) :
  0 < byRelevance a b -> byRelevance b a <= 0.
Proof. unfold byRelevance. lra. Qed.

Lemma byRelevance_trans (a b c : RankedUpdate) :
  byRelevance a b <= 0 -> byRelevance b c <= 0 -> byRelevance a c <= 0.
Proof. unfold byRelevance. lra. Qed.

Lemma rank_unfold (now : Z) (updates : list Update) (d : Disaster) :
  rankUpdatesByRelevance now updates d = sort byRelevance (map (scored now d) updates).
Proof. reflexivity. Qed.

Lemma rank_sorted (now : Z) (updates : list Update) (d : Disaster) :
  StronglySorted scoreDescending (rankUpdatesByRelevance now updates d).
Proof.
  rewrite rank_unfold.
  eapply StronglySorted_weaken;
    [| apply (sort_sorted byRelevance byRelevance_asym byRelevance_trans)].
  intros a b. unfold scoreDescending, byRelevance. lra.
Qed.

Lemma rank_stable (now : Z) (updates : list Update) (d : Disaster) (q : Q) :
  List.filter (sameScore q) (rankUpdatesByRelevance now updates d)
  = List.filter (sameScore q) (map (scored now d) updates).
Proof.
  rewrite rank_unfold. apply sort_filter.
  intros a b Ha Hb. unfold sameScore in *.
  apply Qeq_bool_iff in Ha, Hb. unfold byRelevance. lra.
Qed.

Lemma rank_keeps_all (now : Z) (updates : list Update) (d : Disaster) :
  Permutation (map update (rankUpdatesByRelevance now updates d)) updates.
Proof.
  rewrite rank_unfold. rewrite (sort_perm byRelevance). rewrite map_map. simpl.
  now rewrite map_id.
Qed.



Lemma rankWith_keeps_all (score : Update -> Q) (updates : list Update) :
  Permutation (map update (rankUpdatesWith score updates)) updates.
Proof.
  unfold rankUpdatesWith. rewrite (sort_perm byRelevance). rewrite map_map. simpl.
  now rewrite map_id.
Qed.

Lemma rank_With (now : Z) (updates : list Update) (d : Disaster) :
  rankUpdatesByRelevance now updates d = rankUpdatesWith (scoreUpdate now d) updates.
Proof. reflexivity. Qed.

(** *** The aggregation call *)

Lemma collect_allSettled (promises : list (result (list Update))) :
  collect (allSettled promises)
  = flat_map (fun p => match p with Ok l => l | Throw _ => [] end) promises.
Proof.
  unfold collect, allSettled. induction promises as [|[l|e] ps IH]; simpl;
    [reflexivity | now rewrite IH | exact IH].
Qed.

Lemma computeUpdates_unfold (w : World) (d : Disaster) (o : Options) :
  computeUpdates w d o
  = Ok (slice0 (maxResults o)
          (rankUpdatesByRelevance (now w) (filterRelevantUpdates (delivered w o) d) d)).
Proof.
  unfold computeUpdates, tryCatch, delivered. rewrite collect_allSettled.
  rewrite flat_map_concat_map, map_map, <- flat_map_concat_map. reflexivity.
Qed.

Lemma computeUpdatesWith_unfold (score : Update -> Q) (w : World) (d : Disaster)
    (o : Options) :
  computeUpdatesWith score w d o
  = Ok (slice0 (maxResults o)
          (rankUpdatesWith score (filterRelevantUpdates (delivered w o) d))).
Proof.
  unfold computeUpdatesWith, tryCatch, delivered. rewrite collect_allSettled.
  rewrite flat_map_concat_map, map_map, <- flat_map_concat_map. reflexivity.
Qed.

(** The call of the program is the instance at the scores it computes. *)
Lemma computeUpdates_With (w : World) (d : Disaster) (o : Options) :
  computeUpdates w d o = computeUpdatesWith (scoreUpdate (now w) d) w d o.
Proof. reflexivity. Qed.

Lemma fetchUpdates_With (CACHE_TTL : option Z) (w : World) (disasterId : string)
    (d : Disaster) (o : Options) (tbl : gmap string (Cache.entry (list RankedUpdate))) :
  fetchUpdates CACHE_TTL w disasterId d o tbl
  = fetchUpdatesWith (scoreUpdate (now w) d) CACHE_TTL w disasterId d o tbl.
Proof. reflexivity. Qed.

Lemma fetchPromise_failed (w : World) (tw : Z) (sourceKey e : string) :
  fetchFromSource w sourceKey tw = Throw e -> fetchPromise w tw sourceKey = Ok [].
Proof. intros H. unfold fetchPromise. now rewrite H. Qed.

Lemma delivered_nothing (w : World) (o : Options) :
  (forall sourceKey, In sourceKey (opt_sources o) ->
     exists e, fetchFromSource w sourceKey (timeWindow o) = Throw e) ->
  delivered w o = [].
Proof.
  unfold delivered. induction (opt_sources o) as [|k ks IH]; intros H; simpl;
    [reflexivity|].
  destruct (H k (or_introl eq_refl)) as [e He].
  rewrite (fetchPromise_failed _ _ _ _ He). simpl. apply IH.
  intros k' Hk'. apply H. now right.
Qed.

(** C1 (as stated) fails: a page that lists the same story twice yields two
    surviving records with the same [url]. *)
Lemma same_url_survives_twice :
  exists a b,
    computeUpdates (Examples.femaPage Examples.noon
                      [Examples.floodStory; Examples.floodStory])
                   Examples.houstonFlood Examples.femaOnly
    = Ok [a; b]
    /\ url a = Some "https://www.fema.gov/flood-warning"%string
    /\ url b = Some "https://www.fema.gov/flood-warning"%string
    /\ distinctUrls [a; b] = false.
Proof. eexists. eexists. split; [vm_compute; reflexivity|]. now vm_compute. Qed.

(** C2: when every selected adapter fails, the call returns the empty list
    (and not the mock list). *)
Theorem all_sources_failed_gives_empty (w : World) (d : Disaster) (o : Options) :
  (forall sourceKey, In sourceKey (opt_sources o) ->
     exists e, fetchFromSource w sourceKey (timeWindow o) = Throw e) ->
  computeUpdates w d o = Ok []
  /\ generateMockUpdates w d <> [].
Proof.
  intros H. split; [|discriminate].
  rewrite computeUpdates_unfold, (delivered_nothing w o H). simpl.
  unfold slice0. destruct (maxResults o <? 0)%Z; now rewrite firstn_nil.
Qed.

(** Through the cache the empty list is what the caller gets, and it is
    stored for 30 minutes. *)
Lemma outage_result_is_cached :
  let '(r, tbl) :=
    fetchUpdates None (Examples.outage Examples.noon) "test"
      Examples.healthCheckDisaster Examples.healthCheckOptions ∅ in
  r = Ok (Val [])
  /\ Cache.expires_at <$> (tbl !! "official_updates:test:mock"%string)
     = Some (Examples.noon + 1800 * 1000)%Z.
Proof. vm_compute. split; reflexivity. Qed.

(** The call [healthCheck] makes: [sources: ['mock']] is no configured
    source, so the only adapter call throws. *)
Lemma all_sources_failed_gives_empty_witness :
  computeUpdates (Examples.outage Examples.noon)
                 Examples.healthCheckDisaster Examples.healthCheckOptions = Ok []
  /\ generateMockUpdates (Examples.outage Examples.noon) Examples.healthCheckDisaster <> [].
Proof.
  apply (all_sources_failed_gives_empty (Examples.outage Examples.noon)
           Examples.healthCheckDisaster Examples.healthCheckOptions).
  intros sourceKey [<- | []]. eexists. reflexivity.
Defined.

End OfficialUpdatesFacts.

(* ===================================================================== *)
(** ** Social posts: scoring and ordering                                *)
(* ===================================================================== *)

Module SocialMediaFacts.
Import JS Domain Spec SocialMedia SortFacts.
Import OfficialUpdatesFacts.
Local Open Scope Q_scope.

Lemma Qmin_same (a b c c' : Q) : a == b -> c == c' -> Qmin a c == Qmin b c'.
Proof.
  intros H H'. destruct (Q.min_spec a c) as [[? ->] | [? ->]],
                        (Q.min_spec b c') as [[? ->] | [? ->]]; lra.
Qed.

Lemma fold_left_agree {X} (f g : Q -> X -> Q) (l : list X) (init : Q) :
  (forall acc x, In x l -> f acc x = g acc x) ->
  fold_left f l init = fold_left g l init.
Proof.
  revert init. induction l as [|x l IH]; intros init H; simpl; [reflexivity|].
  rewrite (H init x (or_introl eq_refl)). apply IH.
  intros acc y Hy. apply H. now right.
Qed.

(** The score in closed form: the capped sum of the base signals and the
    urgency boost. *)
Lemma calculateRelevance_closed_form (p : Post) (d : Disaster) :
  calculateRelevance p d
  == Qmin (baseScore p d + (if truthy (isUrgent p) then 0.3 else 0)) 1.
Proof.
  unfold calculateRelevance. apply Qmin_same; [|reflexivity].
  unfold baseScore, matchingTags, matchingParts, engagementBonus.
  set (text := toLowerCase (content p)).
  assert (match tags d with
          | Some tags =>
              fold_left (fun score tag => if includes text (toLowerCase tag)
                                          then score + 0.2 else score) tags 0.5
          | None => 0.5
          end
          == 0.5 + match tags d with
                   | Some tags => countMatches (fun tag => includes text (toLowerCase tag)) tags
                   | None => 0
                   end * 0.2) as Htags.
  { destruct (tags d) as [ts|]; [|lra]. apply fold_bonus. }
  set (afterTags := match tags d with
                    | Some tags => fold_left _ tags 0.5
                    | None => 0.5
                    end) in *.
  assert (match location_name d with
          | Some l =>
              if String.eqb l "" then afterTags
              else fold_left (fun score part => if includes text (trim part)
                                                then score + 0.2 else score)
                             (split "," (toLowerCase l)) afterTags
          | None => afterTags
          end
          == afterTags
             + match location_name d with
               | Some l =>
                   if String.eqb l "" then 0
                   else countMatches (fun part => includes text (trim part))
                                     (split "," (toLowerCase l))
               | None => 0
               end * 0.2) as Hloc.
  { destruct (location_name d) as [l|]; [|lra].
    destruct (String.eqb l ""); [lra|]. apply fold_bonus. }
  set (afterLocation := match location_name d with
                        | Some l => if String.eqb l "" then afterTags else fold_left _ _ afterTags
                        | None => afterTags
                        end) in *.
  rewrite Htags in Hloc. clearbody afterLocation. clear Htags. clearbody afterTags.
  destruct (truthy (isUrgent p)), (metrics p) as [m|], (verified p);
    try destruct (10 <? _)%Z; try destruct (50 <? _)%Z; lra.
Qed.

Lemma engagementBonus_nonneg (p : Post) : 0 <= engagementBonus p.
Proof.
  unfold engagementBonus. destruct (metrics p) as [m|]; [|lra].
  destruct (10 <? _)%Z, (50 <? _)%Z; lra.
Qed.

Lemma baseScore_at_least_half (p : Post) (d : Disaster) : 0.5 <= baseScore p d.
Proof.
  unfold baseScore.
  assert (0 <= matchingTags d (toLowerCase (content p))) as H1.
  { unfold matchingTags. destruct (tags d); [apply countMatches_nonneg | lra]. }
  assert (0 <= matchingParts d (toLowerCase (content p))) as H2.
  { unfold matchingParts. destruct (location_name d) as [l|]; [|lra].
    destruct (String.eqb l ""); [lra | apply countMatches_nonneg]. }
  pose proof (engagementBonus_nonneg p). destruct (verified p); nra.
Qed.

Lemma baseScore_same (p1 p2 : Post) (d : Disaster) :
  content p1 = content p2 -> metrics p1 = metrics p2 -> verified p1 = verified p2 ->
  baseScore p1 d = baseScore p2 d.
Proof.
  intros Hc Hm Hv. unfold baseScore, engagementBonus. now rewrite Hc, Hm, Hv.
Qed.

(** *** Ordering of posts *)

Lemma inject_Z_nonpos (z : Z) : inject_Z z <= 0 <-> (z <= 0)%Z.
Proof. unfold Qle, inject_Z. simpl. lia. Qed.

Lemma inject_Z_pos (z : Z) : 0 < inject_Z z <-> (0 < z)%Z.
Proof. unfold Qlt, inject_Z. simpl. lia. Qed.

Lemma byUrgencyThenRecency_before (a b : Post) :
  byUrgencyThenRecency a b <= 0 <->
  (urgent a = false -> urgent b = false)
  /\ (urgent a = urgent b -> (createdAt b <= createdAt a)%Z).
Proof.
  unfold byUrgencyThenRecency, urgent.
  destruct (truthy (isUrgent a)), (truthy (isUrgent b)); simpl;
    rewrite inject_Z_nonpos; split; try lia; try (intros [H1 H2]);
    try (specialize (H2 eq_refl); lia); try (specialize (H1 eq_refl); discriminate).
Qed.

Lemma byUrgencyThenRecency_asym (a b : Post) :
  0 < byUrgencyThenRecency a b -> byUrgencyThenRecency b a <= 0.
Proof.
  unfold byUrgencyThenRecency.
  destruct (truthy (isUrgent a)), (truthy (isUrgent b)); simpl;
    rewrite inject_Z_pos, inject_Z_nonpos; lia.
Qed.

Lemma byUrgencyThenRecency_trans (a b c : Post) :
  byUrgencyThenRecency a b <= 0 -> byUrgencyThenRecency b c <= 0 ->
  byUrgencyThenRecency a c <= 0.
Proof.
  unfold byUrgencyThenRecency.
  destruct (truthy (isUrgent a)), (truthy (isUrgent b)), (truthy (isUrgent c)); simpl;
    rewrite !inject_Z_nonpos; lia.
Qed.



End SocialMediaFacts.

(* ===================================================================== *)
(** ** Ranking and scoring across the two services                       *)
(* ===================================================================== *)

Module RankingFacts.
Import JS Domain Spec SortFacts.
Import OfficialUpdatesFacts SocialMediaFacts.
Local Open Scope Q_scope.




(** C9 (the code misses the boost).  [processPost] computes the score from
    the post as it came in, on which [isUrgent] is not set yet, and not from
    the enriched copy: the urgency boost of [calculateRelevance] never
    reaches a processed post.  Two incoming posts that agree on [isUrgent],
    metrics and verification and mention the same tags and location parts
    come out with the same score, although one of them is flagged urgent
    and the other is not. *)
Theorem urgency_boost_is_lost (d : Disaster) (p1 p2 : SocialMedia.Post) :
  SocialMedia.isUrgent p1 = SocialMedia.isUrgent p2 ->
  SocialMedia.metrics p1 = SocialMedia.metrics p2 ->
  SocialMedia.verified p1 = SocialMedia.verified p2 ->
  sameMentions d (SocialMedia.content p1) (SocialMedia.content p2) ->
  SocialMedia.detectUrgency (SocialMedia.content p1) = true ->
  SocialMedia.detectUrgency (SocialMedia.content p2) = false ->
  SocialMedia.isUrgent (SocialMedia.processPost p1 d) = Some true
  /\ SocialMedia.isUrgent (SocialMedia.processPost p2 d) = Some false
  /\ SocialMedia.relevanceScore (SocialMedia.processPost p1 d)
     = SocialMedia.relevanceScore (SocialMedia.processPost p2 d).
Proof.
  intros Hu Hm Hv [Htags Hloc] H1 H2.
  unfold SocialMedia.processPost. cbn [SocialMedia.isUrgent SocialMedia.relevanceScore].
  rewrite H1, H2. split; [reflexivity|]. split; [reflexivity|]. f_equal.
  unfold SocialMedia.calculateRelevance. rewrite Hu, Hm, Hv.
  assert (match tags d with
          | Some tags =>
              fold_left (fun score tag =>
                           if includes (toLowerCase (SocialMedia.content p1)) (toLowerCase tag)
                           then score + 0.2 else score) tags 0.5
          | None => 0.5
          end
          = match tags d with
            | Some tags =>
                fold_left (fun score tag =>
                             if includes (toLowerCase (SocialMedia.content p2)) (toLowerCase tag)
                             then score + 0.2 else score) tags 0.5
            | None => 0.5
            end) as ->.
  { destruct (tags d) as [ts|] eqn:E; [|reflexivity].
    apply fold_left_agree. intros acc tag Hin. now rewrite (Htags ts tag eq_refl Hin). }
  assert (forall init,
            match location_name d with
            | Some l =>
                if String.eqb l "" then init
                else fold_left (fun score part =>
                                  if includes (toLowerCase (SocialMedia.content p1)) (trim part)
                                  then score + 0.2 else score)
                               (split "," (toLowerCase l)) init
            | None => init
            end
            = match location_name d with
              | Some l =>
                  if String.eqb l "" then init
                  else fold_left (fun score part =>
                                    if includes (toLowerCase (SocialMedia.content p2)) (trim part)
                                    then score + 0.2 else score)
                                 (split "," (toLowerCase l)) init
              | None => init
              end) as ->; [|reflexivity].
  intros init. destruct (location_name d) as [l|] eqn:E; [|reflexivity].
  destruct (String.eqb l ""); [reflexivity|].
  apply fold_left_agree. intros acc part Hin. now rewrite (Hloc l part eq_refl Hin).
Qed.

(** A plea and a remark about the same flood: the plea is flagged urgent,
    and both score 0.5 + 0.2. *)
Lemma urgency_boost_is_lost_witness :
  SocialMedia.isUrgent (SocialMedia.processPost Examples.pleaPost Examples.houstonFlood)
  = Some true
  /\ SocialMedia.isUrgent (SocialMedia.processPost Examples.remarkPost Examples.houstonFlood)
     = Some false
  /\ SocialMedia.relevanceScore
       (SocialMedia.processPost Examples.pleaPost Examples.houstonFlood)
     = SocialMedia.relevanceScore
         (SocialMedia.processPost Examples.remarkPost Examples.houstonFlood).
Proof.
  apply (urgency_boost_is_lost Examples.houstonFlood Examples.pleaPost Examples.remarkPost);
    try reflexivity.
  split.
  - intros ts tag E Hin. injection E as <-.
    destruct Hin as [<- | []]. reflexivity.
  - intros l part E Hin. injection E as <-.
    vm_compute in Hin. destruct Hin as [<- | [<- | []]]; reflexivity.
Defined.

(** The same two posts through the whole call: both come back with the
    score 7/10, the one flagged urgent included. *)
Lemma urgent_plea_scores_like_a_remark :
  exists plea remark,
    SocialMedia.computeReports
      (Examples.twitterFeed [Examples.pleaPost; Examples.remarkPost])
      SocialMedia.Twitter Examples.houstonFlood 50
    = Ok [plea; remark]
    /\ SocialMedia.isUrgent plea = Some true
    /\ SocialMedia.isUrgent remark = Some false
    /\ postScore plea == 0.7 /\ postScore remark == 0.7.
Proof.
  eexists. eexists. split; [vm_compute; reflexivity|].
  repeat split; reflexivity.
Qed.

(** C10.  Every post scores between 0.5 and 1.0. *)
Theorem post_score_range (post : SocialMedia.Post) (d : Disaster) :
  0.5 <= SocialMedia.calculateRelevance post d
  /\ SocialMedia.calculateRelevance post d <= 1.0
  /\ postScore (SocialMedia.processPost post d) = SocialMedia.calculateRelevance post d.
Proof.
  pose proof (baseScore_at_least_half post d) as Hb.
  split; [|split; [|reflexivity]]; rewrite calculateRelevance_closed_form.
  - destruct (Q.min_spec (baseScore post d
                          + (if SocialMedia.truthy (SocialMedia.isUrgent post)
                             then 0.3 else 0)) 1) as [[? ->] | [? ->]];
      destruct (SocialMedia.truthy (SocialMedia.isUrgent post)); lra.
  - destruct (Q.min_spec (baseScore post d
                          + (if SocialMedia.truthy (SocialMedia.isUrgent post)
                             then 0.3 else 0)) 1) as [[? ->] | [? ->]]; lra.
Qed.

End RankingFacts.

(* ===================================================================== *)
(** ** The cache: keys, and get-or-compute                               *)
(* ===================================================================== *)

Module CacheFacts.
Import JS Spec Cache JSFacts.
#[local] Arguments String.append !s1 s2 : simpl nomatch.
Local Open Scope Z_scope.

(** *** Keys *)

Lemma toInt32_range (z : Z) : - 2 ^ 31 <= toInt32 z < 2 ^ 31.
Proof.
  unfold toInt32. pose proof (Z.mod_pos_bound (z + 2 ^ 31) (2 ^ 32) eq_refl). lia.
Qed.

Lemma hashStep_range (hash : Z) (c : ascii) : - 2 ^ 31 <= hashStep hash c < 2 ^ 31.
Proof. unfold hashStep. rewrite Z.land_diag. apply toInt32_range. Qed.

Lemma hashLoop_range (str : string) : - 2 ^ 31 <= hashLoop str < 2 ^ 31.
Proof.
  unfold hashLoop.
  assert (forall l init, - 2 ^ 31 <= init < 2 ^ 31 ->
                         - 2 ^ 31 <= fold_left hashStep l init < 2 ^ 31) as H.
  { induction l as [|c l IH]; intros init Hi; simpl; [exact Hi|].
    apply IH, hashStep_range. }
  apply H. lia.
Qed.

(** The hash is the numeral, in base 36, of the absolute value of a 32-bit
    integer: at most seven digits [0-9a-z]. *)
Lemma hashString_isBase36 (str : string) :
  isBase36 (hashString str) = true
  /\ parse36 (hashString str) = Z.to_N (Z.abs (hashLoop str))
  /\ (Z.abs (hashLoop str) <= 2 ^ 31).
Proof.
  unfold hashString. split; [apply toString36_isBase36|].
  split; [apply parse36_toString36|].
  pose proof (hashLoop_range str). lia.
Qed.

Lemma generateKey_unfold (service operation : string) (input : keyInput) :
  generateKey service operation input
  = (toLowerCase service ++ ":" ++ toLowerCase operation ++ ":"
     ++ toLowerCase (inputKey input))%string.
Proof. unfold generateKey. now rewrite !toLowerCase_app. Qed.

(** C7 (as the code has it).  The key is
    [<service>:<operation>:<input-or-hash>], lower-cased throughout: an
    input of more than 100 characters is replaced by its hash, a numeral in
    [0-9a-z]; a shorter one is embedded lower-cased.  White space is not
    removed: the key is free of it when service, operation and an embedded
    input are. *)
Theorem generateKey_format (service operation input : string) :
  generateKey service operation (StringInput input)
  = (toLowerCase service ++ ":" ++ toLowerCase operation ++ ":"
     ++ (if (100 <? String.length input)%nat then hashString input
         else toLowerCase input))%string
  /\ isLowerCase (generateKey service operation (StringInput input)) = true
  /\ isBase36 (hashString input) = true
  /\ (hasNoWhiteSpace service = true ->
      hasNoWhiteSpace operation = true ->
      ((String.length input <= 100)%nat -> hasNoWhiteSpace input = true) ->
      hasNoWhiteSpace (generateKey service operation (StringInput input)) = true).
Proof.
  pose proof (hashString_isBase36 input) as (Hb & _ & _).
  destruct (isBase36_fixed _ Hb) as (Hfix & _ & Hws).
  split; [|split; [|split; [exact Hb|]]].
  - rewrite generateKey_unfold. simpl.
    destruct (100 <? String.length input)%nat; [now rewrite Hfix | reflexivity].
  - unfold generateKey. apply toLowerCase_isLowerCase.
  - intros Hs Ho Hi. unfold generateKey.
    rewrite toLowerCase_hasNoWhiteSpace. unfold hasNoWhiteSpace in *.
    rewrite !allChars_app, Hs, Ho. simpl.
    destruct (100 <? String.length input)%nat eqn:E; [exact Hws|].
    apply Hi. apply Nat.ltb_ge in E. exact E.
Qed.

Lemma generateKey_format_witness :
  hasNoWhiteSpace (generateKey "Maps" "geocode" (StringInput "Houston,TX")) = true.
Proof.
  destruct (generateKey_format "Maps" "geocode" "Houston,TX") as (_ & _ & _ & H).
  apply H; reflexivity.
Defined.

(** C7 (as stated) fails: a short input with blanks is embedded with them. *)
Lemma generateKey_keeps_whitespace :
  generateKey "gemini" "extract_locations" (StringInput "New York City")
  = "gemini:extract_locations:new york city"%string
  /\ hasNoWhiteSpace
       (generateKey "gemini" "extract_locations" (StringInput "New York City")) = false.
Proof. split; reflexivity. Qed.

(** *** Get-or-compute *)

Section GetOrSetSteps.
Context {V St : Type} (CACHE_TTL : option Z).
Implicit Types (tbl : gmap string (entry V)) (key : string) (ttl : option Z)
               (src : option string) (fetch : St -> result (nullable V) * St).

Lemma ttlOrDefault_given (t : Z) : t <> 0 -> ttlOrDefault CACHE_TTL (Some t) = t.
Proof. intros H. simpl. destruct (Z.eqb_spec t 0); [contradiction | reflexivity]. Qed.

Lemma getOrSet_miss_unfold now_get now_set key fetch ttl src tbl (s : St) :
  fst (get now_get key tbl) = Null ->
  getOrSet CACHE_TTL now_get now_set key fetch ttl src (tbl, s)
  = match fetch s with
    | (Ok fetchedValue, s') =>
        if isNullish fetchedValue
        then (Ok fetchedValue, (snd (get now_get key tbl), s'))
        else (Ok fetchedValue,
              (snd (set CACHE_TTL now_set key fetchedValue ttl src
                        (snd (get now_get key tbl))), s'))
    | (Throw error, s') => (Throw error, (snd (get now_get key tbl), s'))
    end.
Proof.
  intros Hmiss. unfold getOrSet.
  destruct (get now_get key tbl) as [cached tbl']. simpl in *. subst cached.
  reflexivity.
Qed.

Lemma get_fresh now key tbl (e : entry V) :
  tbl !! key = Some e -> (expires_at e <? now) = false ->
  get now key tbl
  = (value e, <[key := {| value := value e; expires_at := expires_at e;
                          source := source e; hit_count := hit_count e + 1 |}]> tbl).
Proof. intros Hl Hf. unfold get. now rewrite Hl, Hf. Qed.

Lemma get_expired now key tbl (e : entry V) :
  tbl !! key = Some e -> (expires_at e <? now) = true ->
  get now key tbl = (Null, base.delete key tbl).
Proof. intros Hl Hf. unfold get. now rewrite Hl, Hf. Qed.

(** A hit: the stored value comes back, the counter goes up, the compute
    function is not run. *)
Lemma getOrSet_hit now_get now_set key fetch ttl src tbl (s : St) (e : entry V) (v : V) :
  tbl !! key = Some e -> value e = Val v -> (expires_at e <? now_get) = false ->
  getOrSet CACHE_TTL now_get now_set key fetch ttl src (tbl, s)
  = (Ok (Val v),
     (<[key := {| value := Val v; expires_at := expires_at e;
                  source := source e; hit_count := hit_count e + 1 |}]> tbl, s)).
Proof.
  intros Hl Hv Hf. unfold getOrSet. rewrite (get_fresh _ _ _ _ Hl Hf), Hv. reflexivity.
Qed.

End GetOrSetSteps.

Section GetOrSet.
Context {V St : Type} (CACHE_TTL : option Z).
Implicit Types (tbl : gmap string (entry V)) (key : string) (ttl : option Z)
               (src : option string) (fetch : St -> result (nullable V) * St).

(** The round trip, for the lifetime [set] really uses. *)
Lemma getOrSet_round_trip_effective key fetch ttl src tbl (s s' : St) (v : V)
    (t0 t1 : Z) :
  fst (get t0 key tbl) = Null ->
  fetch s = (Ok (Val v), s') ->
  let expiry := t1 + ttlOrDefault CACHE_TTL ttl * 1000 in
  let first := getOrSet CACHE_TTL t0 t1 key (counting fetch) ttl src (tbl, (s, 0%nat)) in
  fst first = Ok (Val v) /\ stateOf first = (s', 1%nat)
  /\ forall t2 t3, t2 <= expiry ->
       let second := getOrSet CACHE_TTL t2 t3 key (counting fetch) ttl src (snd first) in
       fst second = Ok (Val v) /\ stateOf second = (s', 1%nat)
       /\ hit_count <$> (tableOf second !! key) = Some 1
       /\ forall t4 t5, expiry < t4 ->
            let third :=
              getOrSet CACHE_TTL t4 t5 key (counting fetch) ttl src (snd second) in
            snd (stateOf third) = 2%nat.
Proof.
  intros Hmiss Hfetch expiry first.
  assert (first
          = (Ok (Val v),
             (<[key := {| value := Val v; expires_at := expiry;
                          source := src; hit_count := 0 |}]> (snd (get t0 key tbl)),
              (s', 1%nat)))) as Hfirst.
  { unfold first. rewrite getOrSet_miss_unfold by exact Hmiss.
    unfold counting. rewrite Hfetch. reflexivity. }
  rewrite Hfirst. unfold stateOf, tableOf. cbn [fst snd].
  split; [reflexivity|]. split; [reflexivity|].
  intros t2 t3 Hin.
  erewrite getOrSet_hit;
    [| apply lookup_insert_eq | reflexivity | simpl; apply Z.ltb_ge; exact Hin].
  cbn [fst snd value expires_at source hit_count].
  split; [reflexivity|]. split; [reflexivity|].
  split; [now rewrite lookup_insert_eq|].
  intros t4 t5 Hout.
  rewrite getOrSet_miss_unfold.
  - unfold counting at 1. destruct (fetch s') as [[r|e] s'']; simpl;
      [destruct (isNullish r)|]; reflexivity.
  - rewrite (get_expired t4 key _ _ (lookup_insert_eq _ _ _)); [reflexivity|].
    simpl. apply Z.ltb_lt. exact Hout.
Qed.

(** C5 (as the code has it).  For a time-to-live other than 0: starting
    from a miss, with a compute function that returns a non-null value, a
    second call no later than [ttl] seconds after the value was stored is a
    hit (same value, hit counter 1, compute function not run again: one run
    in all); a call after that moment runs the compute function again. *)
Theorem getOrSet_round_trip key fetch (ttl : Z) src tbl (s s' : St) (v : V) (t0 t1 : Z) :
  ttl <> 0 ->
  fst (get t0 key tbl) = Null ->
  fetch s = (Ok (Val v), s') ->
  let first :=
    getOrSet CACHE_TTL t0 t1 key (counting fetch) (Some ttl) src (tbl, (s, 0%nat)) in
  fst first = Ok (Val v) /\ stateOf first = (s', 1%nat)
  /\ forall t2 t3, t2 <= t1 + ttl * 1000 ->
       let second :=
         getOrSet CACHE_TTL t2 t3 key (counting fetch) (Some ttl) src (snd first) in
       fst second = Ok (Val v) /\ stateOf second = (s', 1%nat)
       /\ hit_count <$> (tableOf second !! key) = Some 1
       /\ forall t4 t5, t1 + ttl * 1000 < t4 ->
            let third :=
              getOrSet CACHE_TTL t4 t5 key (counting fetch) (Some ttl) src (snd second) in
            snd (stateOf third) = 2%nat.
Proof.
  intros Httl Hmiss Hfetch.
  pose proof (getOrSet_round_trip_effective key fetch (Some ttl) src tbl s s' v t0 t1
                Hmiss Hfetch) as H.
  rewrite (ttlOrDefault_given CACHE_TTL ttl Httl) in H. exact H.
Qed.

(** C6 (as the code has it).  On a miss the compute function is run once
    and its outcome, value or error, is the outcome of the call.  A value
    other than [null] and [undefined] is stored under the key with hit
    counter 0 and expiry [now + (ttl || defaultTTL)] seconds, which is
    [now + ttl] seconds for a [ttl] other than 0; after [null], [undefined]
    or an error nothing is stored. *)
Theorem getOrSet_on_miss key fetch ttl src tbl (s : St) (t0 t1 : Z) :
  fst (get t0 key tbl) = Null ->
  let out := getOrSet CACHE_TTL t0 t1 key fetch ttl src (tbl, s) in
  fst out = fst (fetch s) /\ stateOf out = snd (fetch s)
  /\ (forall v, fst (fetch s) = Ok (Val v) ->
        tableOf out !! key
        = Some {| value := Val v;
                  expires_at := t1 + ttlOrDefault CACHE_TTL ttl * 1000;
                  source := src; hit_count := 0 |})
  /\ (forall t, ttl = Some t -> t <> 0 -> ttlOrDefault CACHE_TTL ttl = t)
  /\ (forall r, fst (fetch s) = Ok r -> isNullish r = true ->
        tableOf out = snd (get t0 key tbl))
  /\ (forall e, fst (fetch s) = Throw e ->
        fst out = Throw e /\ tableOf out = snd (get t0 key tbl)).
Proof.
  intros Hmiss out. unfold out, stateOf, tableOf.
  rewrite getOrSet_miss_unfold by exact Hmiss.
  destruct (fetch s) as [[r|e] s']; simpl.
  - destruct r as [| |v]; simpl; (split; [reflexivity|]); (split; [reflexivity|]).
    + split; [discriminate|]. split; [intros t -> Ht; now apply ttlOrDefault_given|].
      split; [reflexivity | discriminate].
    + split; [discriminate|]. split; [intros t -> Ht; now apply ttlOrDefault_given|].
      split; [reflexivity | discriminate].
    + split; [intros v' [= <-]; now rewrite lookup_insert_eq|].
      split; [intros t -> Ht; now apply ttlOrDefault_given|].
      split; [intros r [= <-] Hn; discriminate Hn | discriminate].
  - split; [reflexivity|]. split; [reflexivity|].
    split; [discriminate|]. split; [intros t -> Ht; now apply ttlOrDefault_given|].
    split; [discriminate|]. intros e' [= <-]. now split.
Qed.
End GetOrSet.

Lemma getOrSet_round_trip_witness :
  let fetch := Examples.constantFetch "v" in
  let first := getOrSet None 0 5 "k" (counting fetch) (Some 600) None (∅, (tt, 0%nat)) in
  let second :=
    getOrSet None 600005 600005 "k" (counting fetch) (Some 600) None (snd first) in
  let third :=
    getOrSet None 600006 600010 "k" (counting fetch) (Some 600) None (snd second) in
  fst first = Ok (Val "v"%string) /\ snd (stateOf second) = 1%nat
  /\ snd (stateOf third) = 2%nat.
Proof.
  intros fetch first second third.
  destruct (getOrSet_round_trip None "k"%string fetch 600 None ∅ tt tt "v"%string 0 5)
    as (H1 & _ & H2); [lia | reflexivity | reflexivity |].
  split; [exact H1|].
  destruct (H2 600005 600005) as (_ & Hs & _ & H3); [lia|].
  split; [unfold second, first; now rewrite Hs|].
  apply (H3 600006 600010). lia.
Defined.

(** C5 (as stated) fails for [ttl = 0]: the entry is stored with the
    default lifetime, so a call one second later is still a hit and the
    compute function is not run again. *)
Lemma zero_ttl_is_not_zero_lifetime :
  let fetch := Examples.constantFetch "v" in
  let first := getOrSet None 0 0 "k" (counting fetch) (Some 0) None (∅, (tt, 0%nat)) in
  let again := getOrSet None 1000 1000 "k" (counting fetch) (Some 0) None (snd first) in
  fst first = Ok (Val "v"%string) /\ snd (stateOf first) = 1%nat
  /\ fst again = Ok (Val "v"%string) /\ snd (stateOf again) = 1%nat.
Proof. vm_compute. repeat split; reflexivity. Qed.

Lemma getOrSet_on_miss_witness :
  tableOf (getOrSet None 0 7 "k" (Examples.constantFetch "v") (Some 600) None (∅, tt))
    !! "k"%string
  = Some {| value := Val "v"%string; expires_at := 600007;
            source := None; hit_count := 0 |}.
Proof.
  destruct (getOrSet_on_miss None "k"%string (Examples.constantFetch "v") (Some 600) None
              ∅ tt 0 7) as (_ & _ & Hstored & _); [reflexivity|].
  apply (Hstored "v"%string). reflexivity.
Defined.

(** C6 (as stated) fails for [ttl = 0]: the value is stored with expiry
    [now + 3600] seconds, not [now + 0]. *)
Lemma zero_ttl_stored_with_default :
  expires_at <$>
    (tableOf (getOrSet None 0 0 "k" (Examples.constantFetch "v") (Some 0) None (∅, tt))
       !! "k"%string)
  = Some 3600000
  /\ 3600000 <> 0 + 0 * 1000.
Proof. split; [vm_compute; reflexivity | discriminate]. Qed.

End CacheFacts.

(* ===================================================================== *)
(** ** More on the cache: rows, lifetimes, hashes, statistics            *)
(* ===================================================================== *)

Module CacheLaws.
Import JS Spec Cache JSFacts CacheFacts.
#[local] Arguments String.append !s1 s2 : simpl nomatch.
Local Open Scope Z_scope.

Section Rows.
Context {V : Type} (CACHE_TTL : option Z).
Implicit Types (tbl : gmap string (entry V)) (key : string) (ttl : option Z)
               (src : option string) (e : entry V).

(** X1.  A value written by [set] is read back by every [get] made no later
    than the expiry [set] computed, the expiry instant included; the read
    leaves the row in place with its hit counter at 1 and touches no other
    row. *)
Theorem set_then_get (now_set now : Z) key (v : nullable V) ttl src tbl :
  now <= now_set + ttlOrDefault CACHE_TTL ttl * 1000 ->
  let written := snd (set CACHE_TTL now_set key v ttl src tbl) in
  fst (get now key written) = v
  /\ snd (get now key written) !! key
     = Some {| value := v; expires_at := now_set + ttlOrDefault CACHE_TTL ttl * 1000;
               source := src; hit_count := 1 |}
  /\ forall key', key' <> key -> snd (get now key written) !! key' = tbl !! key'.
Proof.
  intros Hin written. unfold written, set. cbn [snd].
  erewrite get_fresh; [| apply lookup_insert_eq | simpl; apply Z.ltb_ge; exact Hin].
  cbn [fst snd value expires_at source hit_count].
  split; [reflexivity|]. split; [now rewrite lookup_insert_eq|].
  intros key' Hne. now rewrite !lookup_insert_ne by congruence.
Qed.

(** X2.  A [get] made after the expiry answers [null] and removes the row,
    whatever was stored, and leaves the other rows alone; the next [get]
    finds no row. *)
Theorem get_evicts_expired (now later : Z) key tbl e :
  tbl !! key = Some e -> expires_at e < now ->
  fst (get now key tbl) = Null
  /\ snd (get now key tbl) !! key = None
  /\ (forall key', key' <> key -> snd (get now key tbl) !! key' = tbl !! key')
  /\ get later key (snd (get now key tbl)) = (Null, snd (get now key tbl)).
Proof.
  intros Hl He.
  rewrite (get_expired now key tbl e Hl) by (apply Z.ltb_lt; exact He).
  cbn [fst snd]. split; [reflexivity|].
  split; [apply lookup_delete_eq|].
  split; [intros key' Hne; now rewrite lookup_delete_ne by congruence|].
  unfold get. now rewrite lookup_delete_eq.
Qed.

Lemma getMany_fresh (times : list Z) key tbl e :
  tbl !! key = Some e ->
  Forall (fun t => t <= expires_at e) times ->
  getMany times key tbl
  = (map (fun _ => value e) times,
     <[key := {| value := value e; expires_at := expires_at e; source := source e;
                 hit_count := hit_count e + Z.of_nat (List.length times) |}]> tbl).
Proof.
  intros Hl Hall. revert tbl e Hl Hall.
  induction times as [|t times IH]; intros tbl e Hl Hall; simpl.
  - f_equal. rewrite Z.add_0_r. symmetry. apply insert_id. rewrite Hl. now destruct e.
  - apply List.Forall_cons_iff in Hall as [Ht Hall].
    rewrite (get_fresh t key tbl e Hl) by (apply Z.ltb_ge; exact Ht).
    erewrite IH; [| apply lookup_insert_eq | exact Hall].
    cbn [value expires_at source hit_count].
    rewrite insert_insert_eq. do 3 f_equal. lia.
Qed.

(** X3.  Reads never extend a lifetime: after any run of [get] calls made
    no later than the expiry, each call has returned the stored value, the
    hit counter has gone up by the number of calls, and value, expiry and
    source are as they were. *)
Theorem hits_are_counted (times : list Z) key tbl e :
  tbl !! key = Some e ->
  Forall (fun t => t <= expires_at e) times ->
  fst (getMany times key tbl) = map (fun _ => value e) times
  /\ snd (getMany times key tbl) !! key
     = Some {| value := value e; expires_at := expires_at e; source := source e;
               hit_count := hit_count e + Z.of_nat (List.length times) |}.
Proof.
  intros Hl Hall. rewrite (getMany_fresh times key tbl e Hl Hall). cbn [fst snd].
  split; [reflexivity | apply lookup_insert_eq].
Qed.

Lemma get_null_again (now later : Z) key tbl :
  fst (get now key tbl) = Null -> fst (get later key (snd (get now key tbl))) = Null.
Proof.
  unfold get. destruct (tbl !! key) as [e|] eqn:Hl; cbn [fst snd].
  - destruct (expires_at e <? now) eqn:He; cbn [fst snd delete].
    + intros _. now rewrite lookup_delete_eq.
    + intros Hv. rewrite lookup_insert_eq. cbn [expires_at value].
      destruct (expires_at e <? later); [reflexivity | exact Hv].
  - intros _. now rewrite Hl.
Qed.

Lemma get_other_keys (now : Z) key key' tbl :
  key' <> key -> snd (get now key tbl) !! key' = tbl !! key'.
Proof.
  intros Hne. unfold get. destruct (tbl !! key) as [e|]; [|reflexivity].
  destruct (expires_at e <? now); cbn [snd delete].
  - now rewrite lookup_delete_ne by congruence.
  - now rewrite lookup_insert_ne by congruence.
Qed.
End Rows.

Section Calls.
Context {V St : Type} (CACHE_TTL : option Z).
Implicit Types (tbl : gmap string (entry V)) (key : string) (ttl : option Z)
               (src : option string) (fetch : St -> result (nullable V) * St).

(** X4.  A [null] or [undefined] result is handed to the caller but never
    cached: the next call for the key, whenever it is made, runs the compute
    function again. *)
Theorem nullish_result_is_not_cached key fetch ttl src tbl (s s' : St)
    (r : nullable V) (t0 t1 t2 t3 : Z) :
  fst (get t0 key tbl) = Null ->
  fetch s = (Ok r, s') -> isNullish r = true ->
  let first := getOrSet CACHE_TTL t0 t1 key (counting fetch) ttl src (tbl, (s, 0%nat)) in
  let second := getOrSet CACHE_TTL t2 t3 key (counting fetch) ttl src (snd first) in
  fst first = Ok r
  /\ tableOf first = snd (get t0 key tbl)
  /\ snd (stateOf first) = 1%nat
  /\ snd (stateOf second) = 2%nat.
Proof.
  intros Hmiss Hfetch Hnull first second.
  assert (first = (Ok r, (snd (get t0 key tbl), (s', 1%nat)))) as Hfirst.
  { unfold first. rewrite getOrSet_miss_unfold by exact Hmiss.
    unfold counting. rewrite Hfetch, Hnull. reflexivity. }
  unfold second. rewrite Hfirst. unfold stateOf, tableOf. cbn [fst snd].
  split; [reflexivity|]. split; [reflexivity|]. split; [reflexivity|].
  rewrite getOrSet_miss_unfold by (now apply get_null_again).
  unfold counting at 1. destruct (fetch s') as [[r'|e'] s'']; cbn [fst snd];
    [destruct (isNullish r')|]; reflexivity.
Qed.

(** X5.  A call for one key leaves every other row of the table as it
    was, whatever the outcome of the call. *)
Theorem getOrSet_other_keys key key' fetch ttl src tbl (s : St) (t0 t1 : Z) :
  key' <> key ->
  tableOf (getOrSet CACHE_TTL t0 t1 key fetch ttl src (tbl, s)) !! key' = tbl !! key'.
Proof.
  intros Hne. unfold tableOf, getOrSet.
  pose proof (get_other_keys t0 key key' tbl Hne) as Hget.
  destruct (get t0 key tbl) as [cached tbl']. cbn [snd] in Hget.
  destruct cached as [| |v]; cbn [fst snd]; try exact Hget.
  destruct (fetch s) as [[r|e] s']; cbn [fst snd]; try exact Hget.
  destruct (isNullish r); cbn [fst snd set]; try exact Hget.
  now rewrite lookup_insert_ne by congruence.
Qed.
End Calls.


Lemma set_then_get_witness :
  fst (get 600007 "k" (snd (set None 7 "k" (Val "v"%string) (Some 600) None ∅)))
  = Val "v"%string.
Proof. apply (set_then_get None 7 600007 "k"%string (Val "v"%string)). simpl. lia. Defined.

Lemma get_evicts_expired_witness :
  snd (get 5001 "gemini:verify_image:a.png" Examples.twoRows)
    !! "gemini:verify_image:a.png"%string = None.
Proof.
  destruct (get_evicts_expired 5001 5002 "gemini:verify_image:a.png"%string
              Examples.twoRows (Examples.row "authentic" 5000 "gemini" 0))
    as (_ & H & _); [reflexivity | simpl; lia | exact H].
Defined.

Lemma hits_are_counted_witness :
  Cache.hit_count <$>
    (snd (getMany [10; 20; 90000] "geocoding:osm:houston" Examples.twoRows)
       !! "geocoding:osm:houston"%string)
  = Some 7.
Proof.
  destruct (hits_are_counted [10; 20; 90000] "geocoding:osm:houston"%string
              Examples.twoRows (Examples.row "29.76,-95.37" 90000 "geocoding" 4))
    as (_ & H); [reflexivity | repeat constructor; simpl; lia |].
  rewrite H. reflexivity.
Defined.

Lemma nullish_result_is_not_cached_witness :
  snd (stateOf
         (getOrSet None 10 10 "k" (counting Examples.emptyFetch) (Some 600) None
            (snd (getOrSet None 0 0 "k" (counting Examples.emptyFetch) (Some 600) None
                    (∅, (tt, 0%nat))))))
  = 2%nat.
Proof.
  apply (nullish_result_is_not_cached None "k"%string Examples.emptyFetch (Some 600) None
           ∅ tt tt Null 0 0 10 10); reflexivity.
Defined.

Lemma getOrSet_other_keys_witness :
  tableOf (getOrSet None 0 0 "k" (Examples.constantFetch "v") (Some 600) None
             (Examples.twoRows, tt))
    !! "geocoding:osm:houston"%string
  = Examples.twoRows !! "geocoding:osm:houston"%string.
Proof. apply (getOrSet_other_keys None "k"%string). discriminate. Defined.

(** *** The hash *)

Lemma toInt32_shift (a k : Z) : toInt32 (a + 2 ^ 32 * k) = toInt32 a.
Proof.
  unfold toInt32. f_equal.
  replace (a + 2 ^ 32 * k + 2 ^ 31) with (a + 2 ^ 31 + k * 2 ^ 32) by lia.
  apply Z_mod_plus_full.
Qed.

Lemma toInt32_offset (a : Z) : exists k, toInt32 a = a + 2 ^ 32 * k.
Proof.
  exists (- ((a + 2 ^ 31) / 2 ^ 32)). unfold toInt32.
  pose proof (Z.div_mod (a + 2 ^ 31) (2 ^ 32)). lia.
Qed.

Lemma hashStep_31 (hash : Z) (c : ascii) :
  hashStep hash c = toInt32 (31 * hash + Z.of_N (charCode c)).
Proof.
  unfold hashStep. rewrite Z.land_diag, Z.shiftl_mul_pow2 by lia.
  destruct (toInt32_offset hash) as [k1 E1].
  destruct (toInt32_offset (toInt32 hash * 2 ^ 5)) as [k2 E2].
  rewrite E2, E1.
  replace ((hash + 2 ^ 32 * k1) * 2 ^ 5 + 2 ^ 32 * k2 - hash + Z.of_N (charCode c))
    with (31 * hash + Z.of_N (charCode c) + 2 ^ 32 * (32 * k1 + k2)) by lia.
  apply toInt32_shift.
Qed.

Lemma hashLoop_from (l : list ascii) (a : Z) :
  fold_left hashStep l (toInt32 a)
  = toInt32 (fold_left (fun h c => 31 * h + Z.of_N (charCode c)) l a).
Proof.
  revert a. induction l as [|c l IH]; intros a; simpl; [reflexivity|].
  rewrite hashStep_31. destruct (toInt32_offset a) as [k E]. rewrite E.
  replace (31 * (a + 2 ^ 32 * k) + Z.of_N (charCode c))
    with (31 * a + Z.of_N (charCode c) + 2 ^ 32 * (31 * k)) by lia.
  rewrite toInt32_shift. apply IH.
Qed.

(** X6.  The number [hashString] prints is the string's polynomial hash in
    base 31 (first character highest), wrapped to a signed 32-bit integer
    and taken in absolute value. *)
Theorem hashString_is_polynomial (str : string) :
  hashLoop str = toInt32 (polynomial31 str)
  /\ hashString str = toString36 (Z.to_N (Z.abs (toInt32 (polynomial31 str)))).
Proof.
  assert (hashLoop str = toInt32 (polynomial31 str)) as H.
  { unfold hashLoop, polynomial31. apply (hashLoop_from _ 0). }
  split; [exact H|]. unfold hashString. now rewrite H.
Qed.

Lemma length_toLowerCase (s : string) : String.length (toLowerCase s) = String.length s.
Proof. induction s as [|c s IH]; simpl; [reflexivity | now rewrite IH]. Qed.

Lemma toString36_aux_grows (fuel : nat) (n : N) (acc : string) :
  (String.length acc <= String.length (toString36_aux fuel n acc))%nat.
Proof.
  revert n acc. induction fuel as [|fuel IH]; intros n acc; simpl; [lia|].
  destruct (n / 36 =? 0)%N; [simpl; lia|].
  etransitivity; [|apply IH]. simpl. lia.
Qed.

Lemma toString36_aux_length (fuel : nat) (n : N) (acc : string) (k : nat) :
  (n < 36 ^ N.of_nat (S k))%N ->
  (String.length (toString36_aux fuel n acc) <= String.length acc + S k)%nat.
Proof.
  revert n acc k. induction fuel as [|fuel IH]; intros n acc k Hn; simpl; [lia|].
  destruct (n / 36 =? 0)%N eqn:E; [simpl; lia|].
  apply N.eqb_neq in E.
  destruct k as [|k].
  - exfalso. apply E. apply N.div_small. exact Hn.
  - etransitivity; [apply (IH _ _ k)|simpl; lia].
    rewrite (Nat2N.inj_succ (S k)), N.pow_succ_r' in Hn.
    apply N.Div0.div_lt_upper_bound. exact Hn.
Qed.

(** X7.  A hash has between one and six characters, whatever the length
    of the string it is taken of. *)
Theorem hash_is_short (input : string) :
  (1 <= String.length (hashString input) <= 6)%nat.
Proof.
  unfold hashString, toString36. split.
  - simpl. destruct (_ / 36 =? 0)%N; [simpl; lia|].
    etransitivity; [|apply toString36_aux_grows]. simpl. lia.
  - apply (toString36_aux_length _ _ EmptyString 5).
    pose proof (hashLoop_range input).
    change (36 ^ N.of_nat 6)%N with 2176782336%N. lia.
Qed.

Lemma toLowerCase_idempotent (s : string) : toLowerCase (toLowerCase s) = toLowerCase s.
Proof.
  induction s as [|c s IH]; simpl; [reflexivity|]. rewrite IH. f_equal.
  clear. each_char c.
Qed.

(** X8.  Keys do not tell upper case from lower case.  For service,
    operation and input made of Latin-1 characters (the strings of this
    embedding, on which lower-casing keeps the length), and an input of at
    most 100 characters, lower-casing the three first gives the same key. *)
Theorem short_keys_ignore_case (service operation input : string) :
  (String.length input <= 100)%nat ->
  generateKey (toLowerCase service) (toLowerCase operation)
              (StringInput (toLowerCase input))
  = generateKey service operation (StringInput input).
Proof.
  intros Hshort. rewrite !generateKey_unfold. simpl.
  rewrite length_toLowerCase.
  apply Nat.ltb_ge in Hshort. rewrite Hshort.
  now rewrite !toLowerCase_idempotent.
Qed.

Lemma short_keys_ignore_case_witness :
  generateKey "geocoding" "osm" (StringInput "houston, tx")
  = generateKey "Geocoding" "OSM" (StringInput "Houston, TX").
Proof.
  apply (short_keys_ignore_case "Geocoding" "OSM" "Houston, TX"). simpl. lia.
Defined.


(** *** Statistics *)

Section Stats.
Context {V : Type}.
Implicit Types (data : list (entry V)) (tbl : gmap string (entry V)).

Lemma countEntry_fold (now : Z) data (init : stats) :
  let st := fold_left (countEntry now) data init in
  totalEntries st = totalEntries init
  /\ totalHits st = totalHits init + sumHits data
  /\ expiredEntries st = (expiredEntries init + expiredRows now data)%nat
  /\ forall src, src <> ""%string ->
       countOf (bySource st) src = (countOf (bySource init) src + rowsOfSource src data)%nat.
Proof.
  revert init. induction data as [|e data IH]; intros init; simpl.
  - unfold expiredRows, rowsOfSource. simpl. repeat split; try lia.
  - destruct (IH (countEntry now init e)) as (H1 & H2 & H3 & H4).
    split; [rewrite H1; reflexivity|].
    split; [rewrite H2; simpl; lia|].
    split.
    + rewrite H3. unfold expiredRows. simpl.
      destruct (expires_at e <? now); simpl; lia.
    + intros src Hsrc. rewrite (H4 src Hsrc). unfold rowsOfSource, countOf. simpl.
      destruct (source e) as [s|]; [|simpl; lia].
      destruct (String.eqb_spec s ""%string) as [-> | Hs].
      * destruct (String.eqb_spec ""%string src); [congruence | simpl; lia].
      * destruct (String.eqb_spec s src) as [-> | Hne].
        -- rewrite lookup_insert_eq. simpl. lia.
        -- rewrite lookup_insert_ne by exact Hne. simpl. lia.
Qed.

Lemma filter_length_le {X} (f : X -> bool) (l : list X) :
  (List.length (List.filter f l) <= List.length l)%nat.
Proof. induction l as [|x l IH]; simpl; [lia|]. destruct (f x); simpl; lia. Qed.

(** X9.  [getStats] counts what is in the table: the number of rows, the
    sum of their hit counters, the rows already expired and, for every
    non-empty source name, the rows carrying it; neither the expired count
    nor any source count exceeds the number of rows. *)
Theorem getStats_counts (now : Z) tbl :
  let data := map snd (map_to_list tbl) in
  let st := getStats now tbl in
  totalEntries st = size tbl
  /\ totalHits st = sumHits data
  /\ expiredEntries st = expiredRows now data
  /\ (expiredEntries st <= totalEntries st)%nat
  /\ forall src, src <> ""%string ->
       countOf (bySource st) src = rowsOfSource src data
       /\ (countOf (bySource st) src <= totalEntries st)%nat.
Proof.
  intros data st. unfold st, getStats, getStatsOf. fold data.
  destruct (countEntry_fold now data
              {| totalEntries := List.length data; bySource := ∅;
                 totalHits := 0; expiredEntries := O |}) as (H1 & H2 & H3 & H4).
  cbn [totalEntries totalHits expiredEntries bySource] in *.
  assert (List.length data = size tbl) as Hsize.
  { unfold data. rewrite length_map. apply length_map_to_list. }
  rewrite H1, H2, H3. split; [exact Hsize|]. split; [lia|]. split; [lia|].
  split; [apply filter_length_le|].
  intros src Hsrc. rewrite (H4 src Hsrc). unfold countOf at 1. rewrite lookup_empty.
  split; [lia|]. simpl. apply filter_length_le.
Qed.

End Stats.

Lemma getStats_counts_witness :
  countOf (bySource (getStats 6000 Examples.twoRows)) "gemini" = 1%nat.
Proof.
  destruct (getStats_counts 6000 Examples.twoRows) as (_ & _ & _ & _ & H).
  destruct (H "gemini"%string) as [-> _]; [discriminate|]. reflexivity.
Defined.

End CacheLaws.

(* ===================================================================== *)
(** ** More on official updates: adapters, the merged list, the cut      *)
(* ===================================================================== *)

Module UpdatesLaws.
Import JS Domain Spec OfficialUpdates SortFacts OfficialUpdatesFacts.
Local Open Scope Z_scope.

(** *** What the adapters deliver *)

Lemma calculatePriority_range (title : string) : 1 <= calculatePriority title <= 5.
Proof.
  unfold calculatePriority.
  repeat match goal with |- context [if ?b then _ else _] => destruct b end; lia.
Qed.

Lemma calculateNWSPriority_range (severity : option string) :
  1 <= calculateNWSPriority severity <= 5.
Proof.
  unfold calculateNWSPriority. destruct severity as [s|]; [|lia].
  repeat match goal with |- context [if ?b then _ else _] => destruct b end; lia.
Qed.

Lemma pushElement_inv (w : World) (src : SourceConfig) (tw : Z) (needTitle : bool)
    (el : Element) (u : Update) :
  In u (pushElement w src tw needTitle el) ->
  1 <= priorityLevel u <= 5
  /\ inWindow (now w) tw (publishedAt u)
  /\ (needTitle = true -> title u <> ""%string).
Proof.
  unfold pushElement.
  match goal with |- In u (if ?c then _ else _) -> _ => destruct c eqn:Hc end;
    [|intros []].
  apply andb_true_iff in Hc as [Ht Hw].
  intros [<- | []]. cbn [priorityLevel publishedAt title].
  split; [apply calculatePriority_range|]. split.
  - destruct (el_date el) as [[ms|]|]; try exact I.
    rewrite TimeWindowFacts.isWithinTimeWindow_dated in Hw.
    apply andb_prop in Hw as [_ Hw]. apply Z.leb_le in Hw. exact Hw.
  - intros ->. simpl in Ht. apply negb_true_iff in Ht.
    intros E. rewrite E in Ht. discriminate.
Qed.

Lemma scrape_inv (w : World) (src : SourceConfig) (tw : Z) (needTitle : bool)
    (l : list Update) (u : Update) :
  scrape w src tw needTitle = Ok l -> In u l ->
  1 <= priorityLevel u <= 5
  /\ inWindow (now w) tw (publishedAt u)
  /\ (needTitle = true -> title u <> ""%string).
Proof.
  unfold scrape, bind. destruct (fetchPage w (newsUrl src)) as [els|e]; [|discriminate].
  intros [= <-] Hin. apply in_flat_map in Hin as (el & _ & Hin).
  eapply pushElement_inv, Hin.
Qed.

Lemma pushAlert_inv (w : World) (src : SourceConfig) (tw : Z) (a : NWSAlert) (u : Update) :
  In u (pushAlert w src tw a) ->
  1 <= priorityLevel u <= 5
  /\ inWindow (now w) tw (publishedAt u)
  /\ url u = Some ("https://www.weather.gov/alerts/" ++ nws_id a)%string
  /\ updateType u = classifyNWSAlert (nws_event a).
Proof.
  unfold pushAlert.
  destruct (isWithinTimeWindow (now w) (Some (nws_date a)) tw) eqn:Hw; [|intros []].
  intros [<- | []]. cbn [priorityLevel publishedAt url updateType].
  split; [apply calculateNWSPriority_range|]. split; [|split; reflexivity].
  destruct (nws_date a) as [ms|]; [|discriminate].
  rewrite TimeWindowFacts.isWithinTimeWindow_dated in Hw.
  apply andb_prop in Hw as [_ Hw]. apply Z.leb_le in Hw. exact Hw.
Qed.

Lemma fetchNWSUpdates_inv (w : World) (src : SourceConfig) (tw : Z)
    (l : list Update) (u : Update) :
  fetchNWSUpdates w src tw = Ok l -> In u l ->
  1 <= priorityLevel u <= 5 /\ inWindow (now w) tw (publishedAt u).
Proof.
  unfold fetchNWSUpdates, tryCatch, bind.
  destruct (fetchAlerts w) as [alerts|e].
  - intros [= <-] Hin. apply in_flat_map in Hin as (a & _ & Hin).
    apply pushAlert_inv in Hin. tauto.
  - intros Hs Hin. destruct (scrape_inv _ _ _ _ _ _ Hs Hin) as (? & ? & _). tauto.
Qed.

Lemma fetchFromSource_inv (w : World) (sourceKey : string) (tw : Z)
    (l : list Update) (u : Update) :
  fetchFromSource w sourceKey tw = Ok l -> In u l ->
  In sourceKey (map fst sources)
  /\ 1 <= priorityLevel u <= 5
  /\ inWindow (now w) tw (publishedAt u)
  /\ (sourceKey = "cdc"%string -> title u <> ""%string).
Proof.
  unfold fetchFromSource, fetchFEMAUpdates, fetchRedCrossUpdates, fetchCDCUpdates,
    fetchGenericUpdates, sources, lookupSource.
  destruct (String.eqb_spec "fema" sourceKey) as [<- | N1].
  { simpl. intros Hs Hin. destruct (scrape_inv _ _ _ _ _ _ Hs Hin) as (? & ? & _).
    repeat split; try tauto; try lia; try discriminate. }
  destruct (String.eqb_spec "redcross" sourceKey) as [<- | N2].
  { simpl. intros Hs Hin. destruct (scrape_inv _ _ _ _ _ _ Hs Hin) as (? & ? & _).
    repeat split; try tauto; try lia; try discriminate. }
  destruct (String.eqb_spec "cdc" sourceKey) as [<- | N3].
  { simpl. intros Hs Hin. destruct (scrape_inv _ _ _ _ _ _ Hs Hin) as (? & ? & Ht).
    repeat split; try tauto; try lia; try (intros _; now apply Ht). }
  destruct (String.eqb_spec "nws" sourceKey) as [<- | N4].
  { simpl. intros Hs Hin. destruct (fetchNWSUpdates_inv _ _ _ _ _ Hs Hin).
    repeat split; try tauto; try lia; try discriminate. }
  discriminate.
Qed.

Lemma delivered_from (w : World) (o : Options) (u : Update) :
  In u (delivered w o) ->
  exists sourceKey l u0,
    In sourceKey (opt_sources o)
    /\ fetchFromSource w sourceKey (timeWindow o) = Ok l /\ In u0 l
    /\ source u = sourceKey
    /\ title u = title u0 /\ publishedAt u = publishedAt u0
    /\ priorityLevel u = priorityLevel u0.
Proof.
  unfold delivered. intros Hin. apply in_flat_map in Hin as (k & Hk & Hin).
  unfold fetchPromise, tryCatch, bind in Hin.
  destruct (fetchFromSource w k (timeWindow o)) as [l|e] eqn:E; [|destruct Hin].
  apply in_map_iff in Hin as (u0 & <- & Hu0).
  exists k, l, u0. cbn. repeat split; assumption.
Qed.

Lemma delivered_priority (w : World) (o : Options) (u : Update) :
  In u (delivered w o) -> 1 <= priorityLevel u <= 5.
Proof.
  intros Hin.
  destruct (delivered_from w o u Hin) as (k & l & u0 & _ & Hf & Hu0 & _ & _ & _ & Hq).
  destruct (fetchFromSource_inv w k (timeWindow o) l u0 Hf Hu0) as (_ & H2 & _).
  now rewrite Hq.
Qed.

(** X11.  Whatever the pages and the alerts feed contain, every update the
    selected adapters deliver carries the key of a requested, configured
    source as its [source], a priority between 1 and 5, and a date that is
    missing or inside the time window; an update from the CDC adapter has a
    title. *)
Theorem delivered_invariant (w : World) (o : Options) (u : Update) :
  In u (delivered w o) ->
  In (source u) (opt_sources o)
  /\ In (source u) (map fst sources)
  /\ 1 <= priorityLevel u <= 5
  /\ inWindow (now w) (timeWindow o) (publishedAt u)
  /\ (source u = "cdc"%string -> title u <> ""%string).
Proof.
  intros Hin.
  destruct (delivered_from w o u Hin) as (k & l & u0 & Hk & Hf & Hu0 & -> & Ht & Hp & Hq).
  destruct (fetchFromSource_inv w k (timeWindow o) l u0 Hf Hu0) as (H1 & H2 & H3 & H4).
  rewrite Ht, Hp, Hq. tauto.
Qed.


Lemma delivered_invariant_witness :
  In Examples.floodUpdate (delivered Examples.threeStories Examples.femaOnly)
  /\ inWindow Examples.noon 72 (publishedAt Examples.floodUpdate).
Proof.
  assert (In Examples.floodUpdate (delivered Examples.threeStories Examples.femaOnly))
    as Hin by (vm_compute; tauto).
  split; [exact Hin|].
  now destruct (delivered_invariant Examples.threeStories Examples.femaOnly
                  Examples.floodUpdate Hin) as (_ & _ & _ & Hw & _).
Defined.

(** *** What the call returns *)

Lemma recencyBonus_bounds (now : Z) (u : Update) : (0 <= recencyBonus now u <= 0.2)%Q.
Proof.
  unfold recencyBonus. destruct (publishedAt u) as [t|]; [|lra].
  destruct (now - t <? 24 * 3600000); [lra|]. destruct (now - t <? 48 * 3600000); lra.
Qed.

Lemma scoreUpdate_at_least (now : Z) (d : Disaster) (u : Update) :
  1 <= priorityLevel u <= 5 ->
  (0.1 <= scoreUpdate now d u)%Q.
Proof.
  intros Hp. rewrite scoreUpdate_closed_form.
  assert (0 <= matchingTags d (updateText u))%Q as Ht.
  { unfold matchingTags. destruct (tags d); [apply countMatches_nonneg | lra]. }
  pose proof (recencyBonus_bounds now u).
  assert (1 <= inject_Z (priorityOrOne u))%Q as Hq.
  { unfold priorityOrOne. destruct (Z.eqb_spec (priorityLevel u) 0); [exfalso; lia|].
    change 1%Q with (inject_Z 1). rewrite <- Zle_Qle. lia. }
  destruct (mentionsLocation d u); lra.
Qed.

Lemma ranked_from (now : Z) (updates : list Update) (d : Disaster) (r : RankedUpdate) :
  In r (rankUpdatesByRelevance now updates d) ->
  In (update r) updates /\ relevanceScore r = scoreUpdate now d (update r).
Proof.
  rewrite rank_unfold. intros Hin.
  apply (Permutation_in _ (sort_perm byRelevance _)) in Hin.
  apply in_map_iff in Hin as (u & <- & Hu). now split.
Qed.

Lemma slice0_subset {A} (n : Z) (l : list A) (x : A) : In x (slice0 n l) -> In x l.
Proof. unfold slice0. destruct (n <? 0); apply firstn_subset. Qed.

(** X12.  Every record the call returns is one of the delivered updates,
    passes the relevance filter, carries the score computed for it, and
    that score is at least 0.1. *)
Theorem returned_updates_invariant (w : World) (d : Disaster) (o : Options) :
  exists l,
    computeUpdates w d o = Ok l
    /\ forall r, In r l ->
         In (update r) (delivered w o)
         /\ isRelevant d (update r) = true
         /\ relevanceScore r = scoreUpdate (now w) d (update r)
         /\ (0.1 <= relevanceScore r)%Q.
Proof.
  eexists. split; [apply computeUpdates_unfold|].
  intros r Hin. apply slice0_subset in Hin.
  apply ranked_from in Hin as [Hin Hscore].
  unfold filterRelevantUpdates in Hin. apply filter_In in Hin as [Hd Hrel].
  split; [exact Hd|]. split; [exact Hrel|]. split; [exact Hscore|].
  rewrite Hscore. apply scoreUpdate_at_least. now apply (delivered_priority w o).
Qed.

Lemma returned_updates_invariant_witness :
  (0.1 <= scoreUpdate Examples.noon Examples.houstonFlood Examples.floodUpdate)%Q.
Proof.
  destruct (returned_updates_invariant Examples.threeStories Examples.houstonFlood
              Examples.femaOnly) as (l & Hl & H).
  assert (In (scored Examples.noon Examples.houstonFlood Examples.floodUpdate) l) as Hin.
  { vm_compute in Hl. injection Hl as <-. vm_compute. tauto. }
  destruct (H _ Hin) as (_ & _ & _ & Hb). exact Hb.
Defined.

(** X13.  A source whose adapter call fails contributes nothing and
    disturbs nothing: the call returns what it returns without that
    source. *)
Theorem failing_source_is_isolated (w : World) (d : Disaster) (o : Options)
    (before after : list string) (sourceKey e : string) :
  fetchFromSource w sourceKey (timeWindow o) = Throw e ->
  computeUpdates w d (withSources o (before ++ sourceKey :: after))
  = computeUpdates w d (withSources o (before ++ after)).
Proof.
  intros Hfail. rewrite !computeUpdates_unfold. cbn [maxResults withSources].
  do 3 f_equal. unfold delivered. cbn [opt_sources timeWindow withSources].
  rewrite !flat_map_app. f_equal. cbn [flat_map].
  now rewrite (fetchPromise_failed _ _ _ _ Hfail).
Qed.

Lemma failing_source_is_isolated_witness :
  computeUpdates Examples.threeStories Examples.houstonFlood
    (withSources Examples.femaOnly (["fema"] ++ "redcross" :: ["nws"]))%string
  = computeUpdates Examples.threeStories Examples.houstonFlood
      (withSources Examples.femaOnly (["fema"] ++ ["nws"]))%string.
Proof.
  apply (failing_source_is_isolated Examples.threeStories Examples.houstonFlood
           Examples.femaOnly ["fema"%string] ["nws"%string] "redcross"%string
           "network error"%string).
  reflexivity.
Defined.

Lemma sorted_prefix_dominates {A} (R : A -> A -> Prop) (n : nat) (l : list A) :
  StronglySorted R l ->
  forall x y, In x (firstn n l) -> In y (skipn n l) -> R x y.
Proof.
  intros Hs. revert n. induction Hs as [|a l Hs IH Ha]; intros n x y Hx Hy.
  - destruct n; destruct Hx.
  - destruct n as [|n]; [destruct Hx|]. simpl in Hx, Hy.
    destruct Hx as [<- | Hx].
    + rewrite List.Forall_forall in Ha. apply Ha.
      rewrite <- (firstn_skipn n l). apply in_or_app. now right.
    + eapply IH; eassumption.
Qed.

(** X14.  The list is cut after ranking: for a non-negative [maxResults]
    the call returns the first [maxResults] entries of the whole ranking,
    as many as there are if fewer, and no update left out scores higher
    than one returned. *)
Theorem cut_keeps_the_best (w : World) (d : Disaster) (o : Options) :
  0 <= maxResults o ->
  exists l,
    computeUpdates w d o = Ok l
    /\ l = firstn (Z.to_nat (maxResults o)) (fullRanking w d o)
    /\ List.length l
       = Nat.min (Z.to_nat (maxResults o))
                 (List.length (filterRelevantUpdates (delivered w o) d))
    /\ forall r r', In r l ->
         In r' (skipn (Z.to_nat (maxResults o)) (fullRanking w d o)) ->
         (relevanceScore r' <= relevanceScore r)%Q.
Proof.
  intros Hn. eexists. split; [apply computeUpdates_unfold|].
  fold (fullRanking w d o). unfold slice0.
  destruct (Z.ltb_spec (maxResults o) 0) as [Hneg|_]; [lia|].
  split; [reflexivity|]. split.
  - rewrite length_firstn. f_equal. unfold fullRanking.
    rewrite <- (Permutation_length
                  (rank_keeps_all (now w) (filterRelevantUpdates (delivered w o) d) d)).
    now rewrite length_map.
  - intros r r' Hr Hr'.
    apply (sorted_prefix_dominates scoreDescending _ _
             (rank_sorted (now w) (filterRelevantUpdates (delivered w o) d) d)
             r r' Hr Hr').
Qed.

Lemma cut_keeps_the_best_witness :
  exists l,
    computeUpdates Examples.threeStories Examples.houstonFlood (Examples.femaFirst 2) = Ok l
    /\ List.length l = 2%nat.
Proof.
  destruct (cut_keeps_the_best Examples.threeStories Examples.houstonFlood
              (Examples.femaFirst 2)) as (l & Hl & _ & Hlen & _); [simpl; lia|].
  exists l. split; [exact Hl|]. rewrite Hlen. reflexivity.
Defined.


(** *** Through the cache *)

Lemma fetchUpdates_unfold (CACHE_TTL : option Z) (w : World) (disasterId : string)
    (d : Disaster) (o : Options) (tbl : gmap string (Cache.entry (list RankedUpdate))) :
  fetchUpdates CACHE_TTL w disasterId d o tbl
  = let g :=
      Cache.getOrSet CACHE_TTL (now w) (now w) (updatesKey disasterId o)
        (fun _ : unit =>
           (match computeUpdates w d o with
            | Ok l => Ok (Val l)
            | Throw e => Throw e
            end, tt))
        (Some 1800) (Some "official_updates"%string) (tbl, tt) in
    (fst g, tableOf g).
Proof.
  unfold fetchUpdates, updatesKey, tableOf.
  destruct (Cache.getOrSet _ _ _ _ _ _ _ _) as [r [t []]]. reflexivity.
Qed.

Lemma fetchUpdates_miss (CACHE_TTL : option Z) (w : World) (disasterId : string)
    (d : Disaster) (o : Options) (tbl : gmap string (Cache.entry (list RankedUpdate))) :
  fst (Cache.get (now w) (updatesKey disasterId o) tbl) = Null ->
  fetchUpdates CACHE_TTL w disasterId d o tbl
  = (Ok (Val (slice0 (maxResults o) (fullRanking w d o))),
     <[updatesKey disasterId o :=
         {| Cache.value := Val (slice0 (maxResults o) (fullRanking w d o));
            Cache.expires_at := now w + 1800 * 1000;
            Cache.source := Some "official_updates"%string;
            Cache.hit_count := 0 |}]>
       (snd (Cache.get (now w) (updatesKey disasterId o) tbl))).
Proof.
  intros Hmiss. rewrite fetchUpdates_unfold.
  rewrite CacheFacts.getOrSet_miss_unfold by exact Hmiss.
  rewrite computeUpdates_unfold. reflexivity.
Qed.

Lemma fetchUpdates_hit (CACHE_TTL : option Z) (w : World) (disasterId : string)
    (d : Disaster) (o : Options) (tbl : gmap string (Cache.entry (list RankedUpdate)))
    (e : Cache.entry (list RankedUpdate)) (l : list RankedUpdate) :
  tbl !! updatesKey disasterId o = Some e ->
  Cache.value e = Val l -> now w <= Cache.expires_at e ->
  fst (fetchUpdates CACHE_TTL w disasterId d o tbl) = Ok (Val l).
Proof.
  intros Hl Hv He. rewrite fetchUpdates_unfold.
  erewrite CacheFacts.getOrSet_hit; [reflexivity | exact Hl | exact Hv |].
  apply Z.ltb_ge. exact He.
Qed.

(** X15.  The cache key of the call is made of the disaster id and the
    source list only.  After a call that missed the cache, any call within
    30 minutes for the same id and sources gets the first answer back:
    other [maxResults] or [timeWindow], another disaster record or a changed
    world make no difference. *)
Theorem cached_answer_ignores_options (CACHE_TTL : option Z) (w1 w2 : World)
    (disasterId : string) (d1 d2 : Disaster) (o1 o2 : Options)
    (tbl : gmap string (Cache.entry (list RankedUpdate))) :
  opt_sources o1 = opt_sources o2 ->
  fst (Cache.get (now w1) (updatesKey disasterId o1) tbl) = Null ->
  now w2 <= now w1 + 1800 * 1000 ->
  let first := fetchUpdates CACHE_TTL w1 disasterId d1 o1 tbl in
  fst first = Ok (Val (slice0 (maxResults o1) (fullRanking w1 d1 o1)))
  /\ fst (fetchUpdates CACHE_TTL w2 disasterId d2 o2 (snd first)) = fst first.
Proof.
  intros Hsrc Hmiss Hin first. unfold first.
  rewrite (fetchUpdates_miss CACHE_TTL w1 disasterId d1 o1 tbl Hmiss). cbn [fst snd].
  split; [reflexivity|].
  assert (updatesKey disasterId o2 = updatesKey disasterId o1) as Hk
    by (unfold updatesKey; now rewrite Hsrc).
  eapply fetchUpdates_hit.
  - rewrite Hk. apply lookup_insert_eq.
  - reflexivity.
  - exact Hin.
Qed.

Lemma cached_answer_ignores_options_witness :
  fst (fetchUpdates None (Examples.outage (Examples.noon + 60000)) "d1"
         Examples.healthCheckDisaster (Examples.femaFirst 1)
         (snd (fetchUpdates None Examples.threeStories "d1" Examples.houstonFlood
                 Examples.femaOnly ∅)))
  = fst (fetchUpdates None Examples.threeStories "d1" Examples.houstonFlood
           Examples.femaOnly ∅).
Proof.
  apply (cached_answer_ignores_options None Examples.threeStories
           (Examples.outage (Examples.noon + 60000)) "d1"%string
           Examples.houstonFlood Examples.healthCheckDisaster
           Examples.femaOnly (Examples.femaFirst 1) ∅);
    [reflexivity | reflexivity | simpl; unfold Examples.noon; lia].
Defined.

Lemma mock_source_unavailable (w : World) (tw : Z) :
  fetchFromSource w "mock" tw = Throw "Source mock not available".
Proof. reflexivity. Qed.

(** X16.  [healthCheck] asks for the source [mock], which is not a
    configured source: on a cold cache it reports unhealthy in every world,
    and, the empty answer being cached, keeps doing so for the next 30
    minutes. *)
Theorem healthCheck_reports_unhealthy (CACHE_TTL : option Z) (w w' : World)
    (tbl : gmap string (Cache.entry (list RankedUpdate))) :
  fst (Cache.get (now w) "official_updates:test:mock" tbl) = Null ->
  now w' <= now w + 1800 * 1000 ->
  fst (healthCheck CACHE_TTL w tbl) = false
  /\ fst (healthCheck CACHE_TTL w' (snd (healthCheck CACHE_TTL w tbl))) = false.
Proof.
  intros Hmiss Hin. unfold healthCheck.
  set (d := {| id := "test"%string; location_name := Some "Test City"%string;
               tags := Some ["flood"%string] |}).
  set (o := {| opt_sources := ["mock"%string]; maxResults := 3; timeWindow := 72 |}).
  change "official_updates:test:mock"%string with (updatesKey "test" o) in Hmiss.
  assert (forall v, fullRanking v d o = []) as Hempty.
  { intros v. unfold fullRanking. rewrite delivered_nothing; [reflexivity|].
    intros k [<- | []]. eexists. apply mock_source_unavailable. }
  rewrite (fetchUpdates_miss CACHE_TTL w "test" d o tbl Hmiss), Hempty.
  cbn [fst snd]. split; [reflexivity|].
  destruct (fetchUpdates CACHE_TTL w' "test" d o _) as [r t] eqn:E.
  apply (f_equal fst) in E. cbn [fst] in E.
  erewrite fetchUpdates_hit in E;
    [| apply lookup_insert_eq | reflexivity | exact Hin].
  subst r. reflexivity.
Qed.

Lemma healthCheck_reports_unhealthy_witness :
  fst (healthCheck None Examples.threeStories ∅) = false.
Proof.
  apply (healthCheck_reports_unhealthy None Examples.threeStories Examples.threeStories ∅);
    [reflexivity | lia].
Defined.


(** *** Adapters and classifiers *)

Lemma pushAlert_length (w : World) (src : SourceConfig) (tw : Z) (alerts : list NWSAlert) :
  (List.length (flat_map (pushAlert w src tw) alerts) <= List.length alerts)%nat.
Proof.
  induction alerts as [|a alerts IH]; simpl; [lia|].
  rewrite length_app. unfold pushAlert at 1.
  destruct (isWithinTimeWindow _ _ _); simpl; lia.
Qed.

Lemma classifyNWSAlert_labels (event : string) :
  In (classifyNWSAlert event) [Warning; Watch; Advisory; Statement; Alert].
Proof.
  unfold classifyNWSAlert.
  repeat match goal with |- context [if ?b then _ else _] => destruct b end;
    simpl; tauto.
Qed.

(** X17.  The weather-service adapter: when the alerts request fails it
    answers exactly what the generic page scrape answers; when it succeeds
    the pages are not used, at most one update is made per alert, and each
    carries a link built from the alert id, a label among warning, watch,
    advisory, statement and alert, and a priority between 1 and 5. *)
Theorem nws_alerts_or_fallback (w : World) (src : SourceConfig) (tw : Z) :
  (forall e, fetchAlerts w = Throw e ->
     fetchNWSUpdates w src tw = fetchGenericUpdates w src tw)
  /\ (forall alerts, fetchAlerts w = Ok alerts ->
        exists l,
          fetchNWSUpdates w src tw = Ok l
          /\ l = flat_map (pushAlert w src tw) alerts
          /\ (List.length l <= List.length alerts)%nat
          /\ forall u, In u l ->
               (exists a, In a alerts
                          /\ url u = Some ("https://www.weather.gov/alerts/" ++ nws_id a)%string)
               /\ In (updateType u) [Warning; Watch; Advisory; Statement; Alert]
               /\ 1 <= priorityLevel u <= 5).
Proof.
  split.
  - intros e He. unfold fetchNWSUpdates. now rewrite He.
  - intros alerts Ha. eexists. unfold fetchNWSUpdates. rewrite Ha. cbn [bind tryCatch].
    split; [reflexivity|]. split; [reflexivity|]. split; [apply pushAlert_length|].
    intros u Hu. apply in_flat_map in Hu as (a & Hin & Hu).
    destruct (pushAlert_inv w src tw a u Hu) as (Hp & _ & Hurl & Ht).
    split; [exists a; now split|]. split; [|exact Hp].
    rewrite Ht. apply classifyNWSAlert_labels.
Qed.

Lemma nws_alerts_or_fallback_witness :
  fetchNWSUpdates (Examples.outage Examples.noon) Examples.nwsConfig 72
  = fetchGenericUpdates (Examples.outage Examples.noon) Examples.nwsConfig 72
  /\ exists l,
       fetchNWSUpdates (Examples.alertsOnly [Examples.stormAlert]) Examples.nwsConfig 72
       = Ok l /\ List.length l = 1%nat.
Proof.
  split.
  - destruct (nws_alerts_or_fallback (Examples.outage Examples.noon)
                Examples.nwsConfig 72) as [H _].
    apply (H "network error"%string). reflexivity.
  - destruct (nws_alerts_or_fallback (Examples.alertsOnly [Examples.stormAlert])
                Examples.nwsConfig 72) as [_ H].
    destruct (H [Examples.stormAlert] eq_refl) as (l & Hl & Hflat & _).
    exists l. split; [exact Hl|]. rewrite Hflat. reflexivity.
Defined.

(** X18.  The two classifiers of a title agree: an evacuation has priority
    4 or 5, an alert at least 3, an advisory at least 2, and a title of
    priority 1 is an update, a relief notice or general. *)
Theorem type_and_priority_agree (title : string) :
  (classifyUpdateType title = Evacuation -> 4 <= calculatePriority title <= 5)
  /\ (classifyUpdateType title = Alert -> 3 <= calculatePriority title <= 5)
  /\ (classifyUpdateType title = Advisory -> 2 <= calculatePriority title <= 5)
  /\ (calculatePriority title = 1 ->
      classifyUpdateType title = StatusUpdate
      \/ classifyUpdateType title = Relief
      \/ classifyUpdateType title = General).
Proof.
  unfold classifyUpdateType, calculatePriority.
  set (lowerTitle := toLowerCase title).
  repeat match goal with
         | |- context [includes lowerTitle ?word] =>
             generalize (includes lowerTitle word); intro
         end.
  repeat match goal with b : bool |- _ => destruct b end; cbn;
    repeat split; intros; try discriminate; try lia; tauto.
Qed.

Lemma type_and_priority_agree_witness :
  4 <= calculatePriority "Mandatory evacuation of Zone A" <= 5
  /\ classifyUpdateType "Road work schedule" = General.
Proof.
  split.
  - now apply (type_and_priority_agree "Mandatory evacuation of Zone A").
  - destruct (type_and_priority_agree "Road work schedule") as (_ & _ & _ & H).
    destruct (H eq_refl) as [E | [E | E]]; [discriminate E | discriminate E | exact E].
Defined.

Lemma includes_empty (s : string) : includes s "" = true.
Proof. destruct s; reflexivity. Qed.

(** X19.  An empty string among the tags matches every text: every update
    then passes the relevance filter, and every update and every post gets
    the tag bonus. *)
Theorem empty_tag_matches_everything (d : Disaster) (tagList : list string) :
  tags d = Some tagList -> In ""%string tagList ->
  (forall updates, filterRelevantUpdates updates d = updates)
  /\ (forall u, mentionsTag d u = true)
  /\ (forall now u, 1 <= priorityLevel u -> (0.4 <= scoreUpdate now d u)%Q)
  /\ (forall post, (0.7 <= SocialMedia.calculateRelevance post d)%Q).
Proof.
  intros Ht Hin.
  assert (forall text, existsb (fun tag => includes text (toLowerCase tag)) tagList = true)
    as Hex.
  { intros text. apply existsb_exists. exists ""%string. split; [exact Hin|].
    apply includes_empty. }
  assert (forall text, (1 <= matchingTags d text)%Q) as Hcount.
  { intros text. unfold matchingTags. rewrite Ht. apply countMatches_some, Hex. }
  split; [|split; [|split]].
  - intros updates. unfold filterRelevantUpdates.
    apply forallb_filter_id. apply forallb_forall. intros u _.
    unfold isRelevant. rewrite Ht, Hex. now rewrite orb_true_r.
  - intros u. unfold mentionsTag. rewrite Ht. apply Hex.
  - intros now u Hp. rewrite scoreUpdate_closed_form.
    pose proof (Hcount (updateText u)). pose proof (recencyBonus_bounds now u).
    assert (1 <= inject_Z (priorityOrOne u))%Q.
    { unfold priorityOrOne. destruct (Z.eqb_spec (priorityLevel u) 0); [exfalso; lia|].
      change 1%Q with (inject_Z 1). rewrite <- Zle_Qle. lia. }
    destruct (mentionsLocation d u); lra.
  - intros post. rewrite SocialMediaFacts.calculateRelevance_closed_form.
    pose proof (Hcount (toLowerCase (SocialMedia.content post))) as H1.
    assert (0.7 <= baseScore post d)%Q as Hb.
    { unfold baseScore.
      assert (0 <= matchingParts d (toLowerCase (SocialMedia.content post)))%Q.
      { unfold matchingParts. destruct (location_name d) as [l|]; [|lra].
        destruct (String.eqb l ""); [lra | apply countMatches_nonneg]. }
      pose proof (SocialMediaFacts.engagementBonus_nonneg post).
      destruct (SocialMedia.verified post); lra. }
    destruct (Q.min_spec (baseScore post d
                          + (if SocialMedia.truthy (SocialMedia.isUrgent post)
                             then 0.3 else 0)) 1)%Q as [[? ->] | [? ->]];
      destruct (SocialMedia.truthy (SocialMedia.isUrgent post)); lra.
Qed.

Lemma empty_tag_matches_everything_witness :
  filterRelevantUpdates [Examples.bulletin "Quarterly budget meeting"]
    {| id := "d2"; tags := Some ["flood"; ""]%string; location_name := None |}
  = [Examples.bulletin "Quarterly budget meeting"].
Proof.
  destruct (empty_tag_matches_everything
              {| id := "d2"; tags := Some ["flood"; ""]%string; location_name := None |}
              ["flood"; ""]%string eq_refl) as [H _]; [simpl; tauto|].
  apply H.
Defined.


(** *** The mock generator *)

Section Templates.
#[local] Arguments String.append !s1 s2 : simpl nomatch.
Local Open Scope string_scope.

Lemma noDollar_app (a b : string) : noDollar (a ++ b) = noDollar a && noDollar b.
Proof. apply JSFacts.allChars_app. Qed.

Lemma replace_skip (a b p rep : string) :
  noDollar a = true ->
  replace (a ++ b) (String "$" p) rep = a ++ replace b (String "$" p) rep.
Proof.
  intros Ha. induction a as [|c a IH]; [reflexivity|].
  unfold noDollar, allChars in Ha. simpl in Ha.
  apply andb_true_iff in Ha as [Hc Ha]. apply negb_true_iff in Hc.
  change (String c a ++ b) with (String c (a ++ b)).
  cbn [replace String.prefix]. rewrite Ascii.eqb_sym in Hc.
  destruct (ascii_dec "$" c) as [E|_];
    [subst c; rewrite Ascii.eqb_refl in Hc; discriminate|].
  change (String c a ++ replace b (String "$" p) rep)
    with (String c (a ++ replace b (String "$" p) rep)).
  f_equal. apply IH. exact Ha.
Qed.

Lemma prefix_app (p b : string) : String.prefix p (p ++ b) = true.
Proof.
  induction p as [|c p IH]; simpl; [now destruct b|].
  destruct (ascii_dec c c); [exact IH | contradiction].
Qed.

Lemma drop_app (p b : string) : drop (String.length p) (p ++ b) = b.
Proof. induction p as [|c p IH]; simpl; [reflexivity | exact IH]. Qed.

Lemma replace_unfold (s pattern rep : string) :
  replace s pattern rep
  = if String.prefix pattern s then rep ++ drop (String.length pattern) s
    else match s with
         | EmptyString => EmptyString
         | String c s' => String c (replace s' pattern rep)
         end.
Proof. destruct s; reflexivity. Qed.

Lemma replace_here (pattern b rep : string) :
  replace (pattern ++ b) pattern rep = rep ++ b.
Proof. now rewrite replace_unfold, prefix_app, drop_app. Qed.

(** The placeholder found behind a text free of [$]. *)
Lemma replace_found (a p b rep : string) :
  noDollar a = true ->
  replace (a ++ String "$" p ++ b) (String "$" p) rep = a ++ rep ++ b.
Proof. intros Ha. now rewrite replace_skip, replace_here. Qed.

Lemma append_empty (s : string) : s ++ "" = s.
Proof. induction s as [|c s IH]; simpl; [reflexivity | now rewrite IH]. Qed.

(** A template with one location and one tag placeholder, in that order. *)
Lemma fill_location_then_tag (a b c loc tag : string) :
  noDollar a = true -> noDollar b = true -> noDollar loc = true ->
  replace (replace (a ++ "${location}" ++ b ++ "${tag}" ++ c) "${location}" loc)
          "${tag}" tag
  = a ++ loc ++ b ++ tag ++ c.
Proof.
  intros Ha Hb Hl. rewrite replace_found by exact Ha.
  rewrite <- !JSFacts.append_assoc.
  rewrite (JSFacts.append_assoc ((a ++ loc) ++ b) "${tag}" c).
  rewrite replace_found by (now rewrite !noDollar_app, Ha, Hl, Hb).
  now rewrite !JSFacts.append_assoc.
Qed.

(** X20.  When neither the location nor the tag put into the templates
    contains a [$], the mock generator returns exactly three updates with
    every placeholder filled in: the titles and contents below, links
    [https://example.com/update/0..2], score 0.8 and the dates the random
    source gives. *)
Theorem mock_updates_are_filled_in (w : World) (d : Disaster) :
  noDollar (mockLocation d) = true -> noDollar (mockTag d) = true ->
  let mock i title content type priority src :=
    {| update :=
         {| title := title; content := content;
            url := Some ("https://example.com/update/" ++ decimal i);
            publishedAt := Some (now w - random w i)%Z;
            source := src; updateType := type; priorityLevel := priority |};
       relevanceScore := 0.8%Q |} in
  generateMockUpdates w d
  = [ mock 0%nat
        ("FEMA Issues Warning for " ++ mockLocation d ++ " Due to " ++ mockTag d)
        ("Official warning has been issued for " ++ mockLocation d
         ++ " area due to ongoing " ++ mockTag d
         ++ ". Residents should take immediate precautions.")
        Alert 4%Z "FEMA";
      mock 1%nat
        ("Relief Operations Continue in " ++ mockLocation d ++ " After " ++ mockTag d)
        ("Emergency response teams continue relief operations in " ++ mockLocation d
         ++ " following the " ++ mockTag d ++ ". Multiple shelters are operational.")
        StatusUpdate 2%Z "Red Cross";
      mock 2%nat
        ("Evacuation Routes Established for " ++ mockLocation d ++ " " ++ mockTag d
         ++ " Response")
        ("Local authorities have established evacuation routes for residents in "
         ++ mockLocation d ++ " affected by the " ++ mockTag d ++ ".")
        Evacuation 5%Z "Emergency Management" ].
Proof.
  intros Hl _ mock. unfold mock, generateMockUpdates, mockTemplates, mapi, mockUpdate.
  fold (mockLocation d). fold (mockTag d).
  set (loc := mockLocation d) in *. set (tag := mockTag d) in *.
  cbn [t_title t_content t_updateType t_priorityLevel].
  pose proof (fun a b c Ha Hb => fill_location_then_tag a b c loc tag Ha Hb Hl) as Hfill.
  f_equal; [|f_equal; [|f_equal]]; f_equal; f_equal.
  - rewrite <- (append_empty tag) at 2.
    exact (Hfill "FEMA Issues Warning for " " Due to " "" eq_refl eq_refl).
  - exact (Hfill "Official warning has been issued for " " area due to ongoing "
                 ". Residents should take immediate precautions." eq_refl eq_refl).
  - rewrite <- (append_empty tag) at 2.
    exact (Hfill "Relief Operations Continue in " " After " "" eq_refl eq_refl).
  - exact (Hfill "Emergency response teams continue relief operations in "
                 " following the " ". Multiple shelters are operational."
                 eq_refl eq_refl).
  - exact (Hfill "Evacuation Routes Established for " " " " Response" eq_refl eq_refl).
  - exact (Hfill "Local authorities have established evacuation routes for residents in "
                 " affected by the " "." eq_refl eq_refl).
Qed.

Lemma mock_updates_are_filled_in_witness :
  map (fun r => title (update r))
      (generateMockUpdates (Examples.outage Examples.noon) Examples.houstonFlood)
  = [ "FEMA Issues Warning for Houston, TX Due to flood";
      "Relief Operations Continue in Houston, TX After flood";
      "Evacuation Routes Established for Houston, TX flood Response" ].
Proof.
  rewrite (mock_updates_are_filled_in (Examples.outage Examples.noon)
             Examples.houstonFlood eq_refl eq_refl).
  reflexivity.
Defined.
End Templates.

End UpdatesLaws.

(* ===================================================================== *)
(** ** More on social posts: keywords, queries, providers                *)
(* ===================================================================== *)

Module PostsLaws.
Import JS Domain Spec SocialMedia SortFacts SocialMediaFacts.
Local Open Scope Z_scope.

(** *** Keywords *)

Lemma keepWordChars_word (s : string) : allChars isWordChar (keepWordChars s) = true.
Proof.
  unfold allChars. induction s as [|c s IH]; simpl; [reflexivity|].
  destruct (isWordChar c) eqn:E; simpl; [now rewrite E|exact IH].
Qed.

Lemma arrayIncludes_In (l : list string) (x : string) :
  arrayIncludes l x = true <-> In x l.
Proof.
  unfold arrayIncludes. rewrite existsb_exists. split.
  - intros (y & Hy & E). apply String.eqb_eq in E. now subst.
  - intros H. exists x. split; [exact H | apply String.eqb_refl].
Qed.

Lemma unique_from (seen l : list string) (x : string) :
  In x (unique seen l) -> In x l /\ ~ In x seen.
Proof.
  revert seen. induction l as [|y l IH]; intros seen; simpl; [tauto|].
  destruct (arrayIncludes seen y) eqn:E.
  - intros H. destruct (IH _ H). tauto.
  - intros [<- | H].
    + split; [now left|]. intros Hs. apply arrayIncludes_In in Hs. congruence.
    + destruct (IH _ H) as [H1 H2]. split; [now right|].
      intros Hs. apply H2. now right.
Qed.

Lemma unique_NoDup (seen l : list string) : List.NoDup (unique seen l).
Proof.
  revert seen. induction l as [|y l IH]; intros seen; simpl; [constructor|].
  destruct (arrayIncludes seen y); [apply IH|].
  constructor; [|apply IH].
  intros H. apply unique_from in H as [_ H]. apply H. now left.
Qed.

(** X21.  [extractKeywords] returns each keyword once; every keyword
    returned is an entry of one of the two keyword lists and consists of
    letters, digits and underscores only, so the entries of two words
    ([help needed], [life threatening], [emergency services]) are never
    returned. *)
Theorem extractKeywords_sound (content : string) :
  List.NoDup (extractKeywords content)
  /\ forall k, In k (extractKeywords content) ->
       (In k disasterKeywords \/ In k urgentKeywords)
       /\ allChars isWordChar k = true
       /\ ~ In k ["help needed"; "life threatening"; "emergency services"]%string.
Proof.
  unfold extractKeywords. split; [apply unique_NoDup|].
  intros k Hk. apply unique_from in Hk as [Hk _].
  apply in_flat_map in Hk as (word & _ & Hk).
  destruct (arrayIncludes disasterKeywords (keepWordChars word)
            || arrayIncludes urgentKeywords (keepWordChars word)) eqn:E;
    [|destruct Hk].
  destruct Hk as [<- | []].
  pose proof (keepWordChars_word word) as Hw.
  split; [|split; [exact Hw|]].
  - apply orb_true_iff in E as [E | E]; apply arrayIncludes_In in E; tauto.
  - intros [H | [H | [H | []]]]; rewrite <- H in Hw; discriminate Hw.
Qed.

Lemma extractKeywords_sound_witness :
  In "trapped"%string
     (extractKeywords "Help needed: family TRAPPED by flood, life threatening!")
  /\ (In "trapped"%string disasterKeywords \/ In "trapped"%string urgentKeywords).
Proof.
  assert (In "trapped"%string
             (extractKeywords "Help needed: family TRAPPED by flood, life threatening!"))
    as Hin by (vm_compute; tauto).
  split; [exact Hin|].
  destruct (extractKeywords_sound
              "Help needed: family TRAPPED by flood, life threatening!") as [_ Hs].
  now destruct (Hs "trapped"%string Hin) as (H & _).
Defined.

(** *** Search queries *)

Lemma searchTerms_unfold (d : Disaster) :
  searchTerms d
  = firstn 10
      ((match tags d with Some ts => ts | None => [] end)
       ++ (match location_name d with
           | Some l => if String.eqb l "" then [] else map trim (split "," l)
           | None => []
           end)
       ++ ["emergency"; "disaster"; "help"]%string).
Proof.
  unfold searchTerms. f_equal.
  destruct (tags d) as [[|t ts]|], (location_name d) as [l|];
    try destruct (String.eqb l ""); cbn [app]; rewrite <- ?app_assoc; reflexivity.
Qed.

(** X22.  A search query has between three and ten terms, the tags first,
    then the parts of the location name, then the three generic words; from
    ten tags on the query consists of the first ten tags alone, and with at
    most seven tags and location parts nothing is cut. *)
Theorem search_terms_cap (d : Disaster) :
  let tagList := match tags d with Some ts => ts | None => [] end in
  let parts := match location_name d with
               | Some l => if String.eqb l "" then [] else map trim (split "," l)
               | None => []
               end in
  buildSearchQuery d = String.concat " OR " (searchTerms d)
  /\ (3 <= List.length (searchTerms d) <= 10)%nat
  /\ ((10 <= List.length tagList)%nat -> searchTerms d = firstn 10 tagList)
  /\ ((List.length tagList + List.length parts <= 7)%nat ->
      searchTerms d = tagList ++ parts ++ ["emergency"; "disaster"; "help"]%string).
Proof.
  intros tagList parts. split; [reflexivity|].
  rewrite searchTerms_unfold. fold tagList. fold parts.
  split; [|split].
  - rewrite length_firstn, !length_app. cbn [List.length]. lia.
  - intros H. rewrite firstn_app.
    replace (10 - List.length tagList)%nat with 0%nat by lia.
    simpl. apply app_nil_r.
  - intros H. apply firstn_all2. rewrite !length_app. cbn [List.length]. lia.
Qed.

Lemma search_terms_cap_witness :
  searchTerms Examples.manyTags
  = ["flood"; "storm"; "surge"; "levee"; "bayou"; "rain"; "wind"; "outage"; "rescue";
     "shelter"]%string
  /\ searchTerms Examples.houstonFlood
     = ["flood"; "Houston"; "TX"; "emergency"; "disaster"; "help"]%string.
Proof.
  split.
  - destruct (search_terms_cap Examples.manyTags) as (_ & _ & H & _).
    rewrite H; [reflexivity | simpl; lia].
  - destruct (search_terms_cap Examples.houstonFlood) as (_ & _ & _ & H).
    rewrite H; [reflexivity | simpl; lia].
Defined.

(** *** Processing and providers *)

(** X23.  In [fetchReports] the urgency found by [processPost] never
    reaches the score: for a post as the adapters build it (no [isUrgent]
    field) the processed post carries the capped base score, whether or not
    its text is urgent, together with the urgency and classification of its
    content. *)
Theorem processed_score_ignores_urgency (post : Post) (d : Disaster) :
  isUrgent post = None ->
  let processed := processPost post d in
  (postScore processed == Qmin (baseScore post d) 1)%Q
  /\ isUrgent processed = Some (detectUrgency (content post))
  /\ classification processed = Some (classifyPost (content post))
  /\ content processed = content post
  /\ createdAt processed = createdAt post.
Proof.
  intros Hu processed. unfold processed, processPost, postScore.
  cbn [relevanceScore isUrgent classification content createdAt].
  split; [|tauto].
  rewrite calculateRelevance_closed_form, Hu. cbn [truthy].
  apply Qmin_same; lra.
Qed.

Lemma processed_score_ignores_urgency_witness :
  isUrgent (processPost Examples.urgentPost Examples.houstonFlood) = Some true
  /\ (postScore (processPost Examples.urgentPost Examples.houstonFlood)
      == Qmin (baseScore Examples.urgentPost Examples.houstonFlood) 1)%Q.
Proof.
  destruct (processed_score_ignores_urgency Examples.urgentPost Examples.houstonFlood
              eq_refl) as (Hs & Hu & _).
  split; [rewrite Hu; reflexivity | exact Hs].
Defined.

Lemma generateMockPosts_raw (now : Z) (draw : nat -> Draw) (d : Disaster) (count : Z) :
  List.length (generateMockPosts now draw d count) = Z.to_nat count
  /\ forall p, In p (generateMockPosts now draw d count) ->
       platform p = Mock /\ isUrgent p = None /\ relevanceScore p = None.
Proof.
  unfold generateMockPosts. split; [now rewrite length_map, length_seq|].
  intros p Hp. apply in_map_iff in Hp as (i & <- & _). now repeat split.
Qed.

Lemma processAndSort_nil (d : Disaster) (n : Z) : processAndSort [] d n = [].
Proof. unfold processAndSort, slice0. simpl. destruct (n <? 0); apply firstn_nil. Qed.

(** X24.  The two live providers fail differently.  When the Bluesky
    search fails the call returns no post at all.  When the Twitter search
    fails the call returns mock posts, at most ten of them, and these are
    not processed: they carry no urgency flag and no relevance score. *)
Theorem provider_outages (w : World) (d : Disaster) (maxResults : Z) :
  (forall e, blueskySearch w = Throw e -> computeReports w Bluesky d maxResults = Ok [])
  /\ (forall e, fetchTwitterPosts w = Throw e ->
        exists l,
          computeReports w Twitter d maxResults = Ok l
          /\ List.length l = Z.to_nat (Z.min maxResults 10)
          /\ forall p, In p l ->
               platform p = Mock /\ isUrgent p = None /\ relevanceScore p = None).
Proof.
  split.
  - intros e He. unfold computeReports, fetchBlueskyPosts. rewrite He.
    cbn [tryCatch bind]. now rewrite processAndSort_nil.
  - intros e He. unfold computeReports. rewrite He. cbn [tryCatch bind].
    eexists. split; [reflexivity|]. apply generateMockPosts_raw.
Qed.

Lemma provider_outages_witness :
  computeReports Examples.socialOutage Bluesky Examples.houstonFlood 50 = Ok []
  /\ exists l,
       computeReports Examples.socialOutage Twitter Examples.houstonFlood 50 = Ok l
       /\ List.length l = 10%nat.
Proof.
  destruct (provider_outages Examples.socialOutage Examples.houstonFlood 50) as [Hb Ht].
  split; [now apply (Hb "Request failed with status code 401"%string)|].
  destruct (Ht "Request failed with status code 429"%string eq_refl) as (l & Hl & Hn & _).
  exists l. split; [exact Hl | exact Hn].
Defined.


Lemma processAndSort_from (posts : list Post) (d : Disaster) (n : Z) (p : Post) :
  In p (processAndSort posts d n) -> exists raw, In raw posts /\ p = processPost raw d.
Proof.
  unfold processAndSort. intros Hp. apply UpdatesLaws.slice0_subset in Hp.
  apply (Permutation_in _ (sort_perm byUrgencyThenRecency _)) in Hp.
  apply in_map_iff in Hp as (raw & <- & Hraw). now exists raw.
Qed.

Lemma processAndSort_length (posts : list Post) (d : Disaster) (n : Z) :
  0 <= n ->
  List.length (processAndSort posts d n) = Nat.min (Z.to_nat n) (List.length posts).
Proof.
  intros Hn. unfold processAndSort, slice0.
  destruct (Z.ltb_spec n 0) as [?|_]; [lia|].
  rewrite length_firstn, (Permutation_length (sort_perm byUrgencyThenRecency _)).
  now rewrite length_map.
Qed.

Lemma calculateRelevance_range (post : Post) (d : Disaster) :
  (0.5 <= calculateRelevance post d <= 1)%Q.
Proof.
  rewrite calculateRelevance_closed_form.
  pose proof (baseScore_at_least_half post d).
  destruct (Q.min_spec (baseScore post d + (if truthy (isUrgent post) then 0.3 else 0)) 1)%Q
    as [[? ->] | [? ->]]; destruct (truthy (isUrgent post)); lra.
Qed.

Lemma mock_provider_length (w : World) (d : Disaster) (maxResults : Z) :
  0 <= maxResults ->
  computeReports w Mock d maxResults
  = Ok (processAndSort (generateMockPosts (now w) (draws w) d maxResults) d maxResults)
  /\ List.length (processAndSort (generateMockPosts (now w) (draws w) d maxResults)
                                 d maxResults)
     = Z.to_nat maxResults.
Proof.
  intros Hn. split; [reflexivity|].
  destruct (generateMockPosts_raw (now w) (draws w) d maxResults) as [Hlen _].
  rewrite processAndSort_length, Hlen by exact Hn. lia.
Qed.

(** X25.  The mock provider fills the request: for a non-negative
    [maxResults] the call returns exactly that many posts, all of platform
    [mock], each processed (urgency flag set, score between 0.5 and 1). *)
Theorem mock_provider_fills_request (w : World) (d : Disaster) (maxResults : Z) :
  0 <= maxResults ->
  exists l,
    computeReports w Mock d maxResults = Ok l
    /\ List.length l = Z.to_nat maxResults
    /\ forall p, In p l ->
         platform p = Mock
         /\ isUrgent p = Some (detectUrgency (content p))
         /\ exists q, relevanceScore p = Some q /\ (0.5 <= q <= 1)%Q.
Proof.
  intros Hn. unfold computeReports. cbn [tryCatch bind]. eexists.
  split; [reflexivity|].
  destruct (generateMockPosts_raw (now w) (draws w) d maxResults) as [Hlen Hraw].
  split; [rewrite processAndSort_length, Hlen by exact Hn; lia|].
  intros p Hp. apply processAndSort_from in Hp as (raw & Hin & ->).
  destruct (Hraw raw Hin) as (Hplat & _ & _).
  cbn [processPost platform isUrgent content relevanceScore].
  split; [exact Hplat|]. split; [reflexivity|].
  eexists. split; [reflexivity | apply calculateRelevance_range].
Qed.

Lemma mock_provider_fills_request_witness :
  exists l,
    computeReports Examples.socialOutage Mock Examples.houstonFlood 5 = Ok l
    /\ List.length l = 5%nat.
Proof.
  destruct (mock_provider_fills_request Examples.socialOutage Examples.houstonFlood 5)
    as (l & Hl & Hn & _); [lia|].
  exists l. split; [exact Hl | exact Hn].
Defined.

(** X26.  Cutting to [maxResults] never drops an urgent post while a calm
    one is kept: for a non-negative [maxResults] the call keeps
    [min(maxResults, number of posts)] posts, and if a calm post is among
    them then so is every post whose text is urgent. *)
Theorem urgent_posts_survive_the_cut (posts : list Post) (d : Disaster) (maxResults : Z)
    (calm raw : Post) :
  0 <= maxResults ->
  In calm (processAndSort posts d maxResults) -> urgent calm = false ->
  In raw posts -> detectUrgency (content raw) = true ->
  In (processPost raw d) (processAndSort posts d maxResults)
  /\ List.length (processAndSort posts d maxResults)
     = Nat.min (Z.to_nat maxResults) (List.length posts).
Proof.
  intros Hn Hcalm Hc Hraw Hu. split; [|now apply processAndSort_length].
  unfold processAndSort, slice0 in *.
  destruct (Z.ltb_spec maxResults 0) as [?|_]; [lia|].
  set (sorted := sort byUrgencyThenRecency (map (fun post => processPost post d) posts)) in *.
  assert (In (processPost raw d) sorted) as Hq.
  { apply (Permutation_in _ (Permutation_sym (sort_perm byUrgencyThenRecency _))).
    apply in_map_iff. now exists raw. }
  rewrite <- (firstn_skipn (Z.to_nat maxResults) sorted) in Hq.
  apply in_app_or in Hq as [Hq | Hq]; [exact Hq|]. exfalso.
  pose proof (UpdatesLaws.sorted_prefix_dominates _ (Z.to_nat maxResults) sorted
                (sort_sorted byUrgencyThenRecency byUrgencyThenRecency_asym
                   byUrgencyThenRecency_trans _) calm (processPost raw d) Hcalm Hq) as Hb.
  apply byUrgencyThenRecency_before in Hb as [Hb _].
  specialize (Hb Hc). unfold urgent in Hb. cbn [processPost isUrgent truthy] in Hb.
  rewrite Hu in Hb. discriminate.
Qed.

Lemma urgent_posts_survive_the_cut_witness :
  In (processPost Examples.urgentPost Examples.houstonFlood)
     (processAndSort [Examples.calmPost; Examples.urgentPost] Examples.houstonFlood 2).
Proof.
  apply (urgent_posts_survive_the_cut [Examples.calmPost; Examples.urgentPost]
           Examples.houstonFlood 2
           (processPost Examples.calmPost Examples.houstonFlood) Examples.urgentPost);
    [lia | vm_compute; tauto | reflexivity | simpl; tauto | reflexivity].
Defined.

(** *** Through the cache *)

Lemma fetchReports_unfold (CACHE_TTL : option Z) (w : World) (disasterId : string)
    (d : Disaster) (provider : Platform) (maxResults : Z)
    (tbl : gmap string (Cache.entry (list Post))) :
  fetchReports CACHE_TTL w disasterId d provider maxResults tbl
  = let g :=
      Cache.getOrSet CACHE_TTL (now w) (now w) (reportsKey provider disasterId d)
        (fun _ : unit =>
           (match computeReports w provider d maxResults with
            | Ok l => Ok (Val l)
            | Throw e => Throw e
            end, tt))
        (Some 600) (Some ("social_media_" ++ providerName provider)%string) (tbl, tt) in
    (fst g, tableOf g).
Proof.
  unfold fetchReports, reportsKey, tableOf.
  destruct (Cache.getOrSet _ _ _ _ _ _ _ _) as [r [t []]]. reflexivity.
Qed.

(** X27.  [healthCheck] of the social service asks the mock provider for
    five posts: on a cold cache it reports healthy in every world, with
    both live providers down as well. *)
Theorem social_healthCheck_reports_healthy (CACHE_TTL : option Z) (w : World)
    (tbl : gmap string (Cache.entry (list Post))) :
  fst (Cache.get (now w)
         "social_media:mock_test:flood or test city or emergency or disaster or help"
         tbl) = Null ->
  fst (healthCheck CACHE_TTL w tbl) = true.
Proof.
  intros Hmiss. unfold healthCheck.
  set (d := {| id := "test"%string; location_name := Some "Test City"%string;
               tags := Some ["flood"%string] |}).
  change "social_media:mock_test:flood or test city or emergency or disaster or help"%string
    with (reportsKey Mock "test" d) in Hmiss.
  rewrite fetchReports_unfold.
  rewrite CacheFacts.getOrSet_miss_unfold by exact Hmiss.
  destruct (mock_provider_length w d 5) as (Hl & Hn); [lia|].
  rewrite Hl. cbn [isNullish fst snd tableOf]. rewrite Hn. reflexivity.
Qed.

Lemma social_healthCheck_reports_healthy_witness :
  fst (healthCheck None Examples.socialOutage ∅) = true.
Proof.
  apply (social_healthCheck_reports_healthy None Examples.socialOutage ∅). reflexivity.
Defined.

End PostsLaws.

(* ===================================================================== *)
(** ** Official updates: nothing is merged by url                        *)
(* ===================================================================== *)

Module AggregationFacts.
Import JS Domain Spec OfficialUpdates SortFacts.
Import OfficialUpdatesFacts.
Local Open Scope Z_scope.

Lemma filter_length_perm {X} (p : X -> bool) (l l' : list X) :
  Permutation l l' ->
  List.length (List.filter p l) = List.length (List.filter p l').
Proof.
  induction 1 as [|x l l' _ IH|x y l|l l' l'' _ IH1 _ IH2]; simpl.
  - reflexivity.
  - destruct (p x); simpl; now rewrite IH.
  - destruct (p x), (p y); reflexivity.
  - now rewrite IH1.
Qed.

Lemma filter_map_length {X Y} (f : X -> Y) (p : Y -> bool) (l : list X) :
  List.length (List.filter (fun x => p (f x)) l)
  = List.length (List.filter p (map f l)).
Proof.
  induction l as [|x l IH]; simpl; [reflexivity|].
  destruct (p (f x)); simpl; now rewrite IH.
Qed.

Lemma slice0_all {A} (n : Z) (l : list A) :
  Z.of_nat (List.length l) <= n -> slice0 n l = l.
Proof.
  intros H. unfold slice0.
  destruct (Z.ltb_spec n 0) as [Hn | Hn]; [exfalso; lia|].
  apply firstn_all2. lia.
Qed.

Lemma fetchUpdatesWith_miss (score : Update -> Q) (CACHE_TTL : option Z) (w : World)
    (disasterId : string) (d : Disaster) (o : Options)
    (tbl : gmap string (Cache.entry (list RankedUpdate))) :
  fst (Cache.get (now w) (updatesKey disasterId o) tbl) = Null ->
  fst (fetchUpdatesWith score CACHE_TTL w disasterId d o tbl)
  = Ok (Val (slice0 (maxResults o)
               (rankUpdatesWith score (filterRelevantUpdates (delivered w o) d)))).
Proof.
  intros Hmiss. unfold fetchUpdatesWith. fold (updatesKey disasterId o).
  rewrite CacheFacts.getOrSet_miss_unfold by exact Hmiss.
  rewrite computeUpdatesWith_unfold. reflexivity.
Qed.

(** C1 (amended).  On a cache miss the aggregation call does not
    deduplicate.  What it returns is the first [maxResults] entries of a
    ranking that is a rearrangement of all the delivered updates that pass
    the relevance filter, each occurrence kept: the ranking holds as many
    records of any given kind, for one those of a given [url], as were
    delivered and relevant.  When [maxResults] is at least the number of
    these updates, the whole ranking is returned.  This holds whatever
    numbers the scoring loop attaches. *)
Theorem ranking_keeps_every_occurrence (score : Update -> Q) (CACHE_TTL : option Z)
    (w : World) (disasterId : string) (d : Disaster) (o : Options)
    (tbl : gmap string (Cache.entry (list RankedUpdate))) :
  fst (Cache.get (now w) (updatesKey disasterId o) tbl) = Null ->
  exists ranked,
    fst (fetchUpdatesWith score CACHE_TTL w disasterId d o tbl)
    = Ok (Val (slice0 (maxResults o) ranked))
    /\ Permutation (map update ranked) (filterRelevantUpdates (delivered w o) d)
    /\ (forall kind : Update -> bool,
          List.length (List.filter (fun r => kind (update r)) ranked)
          = List.length (List.filter kind (filterRelevantUpdates (delivered w o) d)))
    /\ (Z.of_nat (List.length (filterRelevantUpdates (delivered w o) d)) <= maxResults o ->
        slice0 (maxResults o) ranked = ranked).
Proof.
  intros Hmiss.
  exists (rankUpdatesWith score (filterRelevantUpdates (delivered w o) d)).
  pose proof (rankWith_keeps_all score (filterRelevantUpdates (delivered w o) d)) as Hp.
  split; [now apply fetchUpdatesWith_miss|].
  split; [exact Hp|]. split.
  - intros kind. rewrite (filter_map_length update kind).
    now apply filter_length_perm.
  - intros Hn. apply slice0_all.
    rewrite <- (Permutation_length Hp) in Hn. now rewrite length_map in Hn.
Qed.

(** A page that lists the same story twice, asked for with an empty cache
    and the default [maxResults] of 20. *)
Lemma ranking_keeps_every_occurrence_witness :
  exists ranked,
    fst (fetchUpdatesWith (scoreUpdate Examples.noon Examples.houstonFlood) None
           (Examples.femaPage Examples.noon [Examples.floodStory; Examples.floodStory])
           "d1" Examples.houstonFlood Examples.femaOnly ∅)
    = Ok (Val (slice0 20 ranked))
    /\ List.length
         (List.filter (fun r => match url (update r) with
                                | Some u => String.eqb u "https://www.fema.gov/flood-warning"
                                | None => false
                                end) ranked) = 2%nat
    /\ slice0 20 ranked = ranked.
Proof.
  destruct (ranking_keeps_every_occurrence
              (scoreUpdate Examples.noon Examples.houstonFlood) None
              (Examples.femaPage Examples.noon [Examples.floodStory; Examples.floodStory])
              "d1" Examples.houstonFlood Examples.femaOnly ∅)
    as (ranked & Hret & _ & Hkind & Hall); [reflexivity|].
  exists ranked. split; [exact Hret|]. split.
  - rewrite (Hkind (fun u => match url u with
                             | Some u => String.eqb u "https://www.fema.gov/flood-warning"
                             | None => false
                             end)).
    reflexivity.
  - apply Hall. vm_compute. discriminate.
Defined.

End AggregationFacts.
